(** * Forward Email: IMAP command handlers and the SQLite websocket server

    A shallow embedding of

    - [src/helpers/imap/on-expunge.js]  ([onExpunge]),
    - [src/helpers/on-close.js], second module ([onUnsubscribe]),
    - [src/unnamed/part_002]  (class [SQLite]: [authenticate], the
      [upgrade] listener and the websocket [message] listener),

    and the properties of the specification that these functions decide.

    The handlers are [async] functions that call collaborators (the
    mailbox and message models, the lock helper, the attachment storage,
    the notifier, the RPC client [wsp]) and report through a callback
    [fn].  They are embedded in a small monad that threads the
    collaborators' store and the handler's local variables, carries
    JavaScript exceptions, and writes the calls that were made to a
    trace.  [logger.debug] calls are left out of the trace; [logger.error]
    and [logger.fatal] are recorded. *)

From stdpp Require Import base list strings gmap.
From Stdlib Require Import Ascii ZArith NArith Lia Sorted Permutation DecimalString.

Local Open Scope string_scope.
Local Open Scope Z_scope.
Local Open Scope list_scope.

(** ** JavaScript values *)

(** A string is truthy unless it is empty. *)
Definition truthy_string (s : string) : bool :=
  match s with
  | EmptyString => false
  | String _ _ => true
  end.

(** [o] is a property that may be missing ([undefined]). *)
Definition truthy_opt (o : option string) : bool :=
  match o with
  | Some s => truthy_string s
  | None => false
  end.

(** The values that travel as callback arguments and RPC results. *)
Inductive JsValue :=
| JsUndefined
| JsBool (b : bool)
| JsString (s : string).

(** [err.output] of a Boom error. *)
Record BoomOutput := {
  statusCode : N;
  payload_error : string
}.

(** An [Error] object with the properties the code reads or sets. *)
Record JsError := {
  message : string;
  imapResponse : option string;
  isCodeBug : bool;
  output : option BoomOutput
}.

(** [new IMAPError(message, { imapResponse })] *)
Definition IMAPError (msg code : string) : JsError :=
  {| message := msg; imapResponse := Some code;
     isCodeBug := false; output := None |}.

(** [Boom.unauthorized(message)]: status 401, payload error "Unauthorized". *)
Definition Boom_unauthorized (msg : string) : JsError :=
  {| message := msg; imapResponse := None; isCodeBug := false;
     output := Some {| statusCode := 401%N; payload_error := "Unauthorized" |} |}.

(** A call either returns or throws. *)
Inductive Outcome (A : Type) :=
| Returned (a : A)
| Threw (e : JsError).
Arguments Returned {A} a.
Arguments Threw {A} e.

(** ** Data model *)

Record Mailbox := {
  mailbox_id : string;          (* _id *)
  path : string;
  subscribed : bool
}.

Record MimeTree := {
  attachmentMap : option (list (string * string))
}.

Record Message := {
  message_id : string;          (* _id *)
  mailbox : string;
  uid : Z;
  undeleted : bool;
  mimeTree : option MimeTree;
  magic : string;
  thread : string;
  unseen : bool;
  idate : Z
}.

Record User := {
  alias_id : string;
  locale : string
}.

Record Selected := {
  selected_mailbox : option string
}.

Record Session := {
  session_id : string;          (* id *)
  user : User;
  remoteAddress : string;
  selected : option Selected;
  db_wsp : bool                 (* session.db.wsp is set *)
}.

Record Update := {
  isUid : bool;
  silent : bool;
  messages : list Z
}.

(** The token [acquireLock] returns. *)
Record Lock := {
  success : bool;
  lock_key : string
}.

(** The [condition] object of the select statement.  [cond_uid] is what
    [tools.checkRangeQuery(update.messages)] stands for: the UIDs the
    client named. *)
Record Condition := {
  cond_mailbox : string;
  cond_undeleted : bool;
  cond_uid : option (list Z)
}.

Definition checkRangeQuery (uids : list Z) : list Z := uids.

(** The filter handed to [Messages.deleteOne]. *)
Record MessageFilter := {
  filter_id : string;
  filter_mailbox : string;
  filter_uid : Z
}.

Record DeleteResult := {
  deletedCount : N
}.

(** The entry handed to [notifier.addEntries]. *)
Record Entry := {
  ignore : string;
  command : string;
  entry_uid : Z;
  entry_mailbox : string;
  entry_message : string;
  entry_thread : string;
  entry_unseen : bool;
  entry_idate : Z
}.

(** A protocol write: an array for [session.formatResponse], such as
    ['EXPUNGE', uid], or a raw string. *)
Inductive Write :=
| WriteArgs (cmd : string) (n : Z)
| WriteRaw (raw : string).

Inductive MailboxUpdate :=
| SetSubscribed (b : bool).   (* { $set: { subscribed: b } } *)

(** Arguments of the protocol callback after the error position. *)
Inductive FnArg :=
| ArgValue (v : JsValue)
| ArgWrites (ws : list Write).

(** [fn(err, ...args)]; [fn_err = None] is [fn(null, ...)]. *)
Record Callback := {
  fn_err : option JsError;
  fn_args : list FnArg
}.

Inductive LogLevel := LogError | LogFatal.

(** The calls a handler makes, in the order it makes them. *)
Inductive Event :=
| EvRefreshSession (cmd : string)
| EvFindOne (id : string)
| EvFindOneAndUpdate (p : string) (u : MailboxUpdate)
| EvAcquireLock (r : Outcome Lock)
| EvReleaseLock (l : Lock) (r : Outcome unit)
| EvSelect (via_wsp : bool) (c : Condition) (r : Outcome (list Message))
| EvDeleteOne (f : MessageFilter) (r : Outcome (option DeleteResult))
| EvDeleteMany (ids : list string) (mgc : string) (r : Outcome unit)
| EvAddEntries (e : Entry) (r : Outcome unit)
| EvFire (alias : string) (r : Outcome unit)
| EvSize (alias : string) (r : Outcome unit)
| EvRequest (action : string) (ok : bool)
| EvSessionWrite (w : Write)
| EvLog (lvl : LogLevel) (e : JsError)
| EvCallback (cb : Callback).

(** ** The handler monad *)

Section Handlers.

Context {Store : Type}.

(** The collaborators' state and the handler's [let] variables. *)
Record Frame := {
  store : Store;
  lock : option Lock;            (* let lock; *)
  writeStream : list Write       (* const writeStream = []; *)
}.

Definition M (A : Type) : Type := Frame -> Outcome A * Frame * list Event.

Definition ret {A} (a : A) : M A := fun fr => (Returned a, fr, []).

Definition throw {A} (e : JsError) : M A := fun fr => (Threw e, fr, []).

Definition bind {A B} (m : M A) (k : A -> M B) : M B :=
  fun fr =>
    match m fr with
    | (Returned a, fr1, t1) =>
        match k a fr1 with
        | (r, fr2, t2) => (r, fr2, t1 ++ t2)
        end
    | (Threw e, fr1, t1) => (Threw e, fr1, t1)
    end.

(** [try { m } catch (err) { h err }] *)
Definition try_catch {A} (m : M A) (h : JsError -> M A) : M A :=
  fun fr =>
    match m fr with
    | (Returned a, fr1, t1) => (Returned a, fr1, t1)
    | (Threw e, fr1, t1) =>
        match h e fr1 with
        | (r, fr2, t2) => (r, fr2, t1 ++ t2)
        end
    end.

Definition emit (ev : Event) : M unit := fun fr => (Returned tt, fr, [ev]).

(** A collaborator's method run on the store; the call is recorded with
    its outcome. *)
Definition call {A} (svc : Store -> Outcome A * Store)
    (ev : Outcome A -> Event) : M A :=
  fun fr =>
    match svc (store fr) with
    | (r, s) =>
        (r, {| store := s; lock := lock fr; writeStream := writeStream fr |},
         [ev r])
    end.

Definition get_lock : M (option Lock) := fun fr => (Returned (lock fr), fr, []).

Definition set_lock (l : option Lock) : M unit :=
  fun fr =>
    (Returned tt,
     {| store := store fr; lock := l; writeStream := writeStream fr |}, []).

Definition get_writeStream : M (list Write) :=
  fun fr => (Returned (writeStream fr), fr, []).

Definition set_writeStream (ws : list Write) : M unit :=
  fun fr =>
    (Returned tt, {| store := store fr; lock := lock fr; writeStream := ws |}, []).

(** [writeStream.push(w)] *)
Definition push_write (w : Write) : M unit :=
  fun fr =>
    (Returned tt,
     {| store := store fr; lock := lock fr;
        writeStream := writeStream fr ++ [w] |}, []).

Declare Scope handler_scope.
Delimit Scope handler_scope with handler.
Notation "x <- m ;; k" := (bind m (fun x => k))
  (at level 100, m at next level, right associativity) : handler_scope.
Notation "m ;; k" := (bind m (fun _ => k))
  (at level 100, right associativity) : handler_scope.
Local Open Scope handler_scope.

(** [for (const x of xs) { body x }] *)
Fixpoint for_of {A} (xs : list A) (body : A -> M unit) : M unit :=
  match xs with
  | [] => ret tt
  | x :: rest => body x ;; for_of rest body
  end.

Definition logger (lvl : LogLevel) (e : JsError) : M unit := emit (EvLog lvl e).

(** [fn(null, ...args)] and [fn(err)] *)
Definition fn (args : list FnArg) : M unit :=
  emit (EvCallback {| fn_err := None; fn_args := args |}).

Definition fn_error (e : JsError) : M unit :=
  emit (EvCallback {| fn_err := Some e; fn_args := [] |}).

(** ** The collaborators

    None of them is defined in the files at hand: the handlers are
    embedded over an arbitrary implementation.  A method takes the
    store and gives an outcome and the store it leaves. *)

Record Services := {
  refreshSession : Session -> string -> Store -> Outcome unit * Store;
  Mailboxes_findOne :
    Session -> string -> Store -> Outcome (option Mailbox) * Store;
  Mailboxes_findOneAndUpdate :
    Session -> string -> MailboxUpdate -> Store ->
    Outcome (option Mailbox) * Store;
  acquireLock : Session -> Store -> Outcome Lock * Store;
  releaseLock : Session -> Lock -> Store -> Outcome unit * Store;
  (* session.db.prepare(sql.query).all(sql.values) *)
  db_all : Session -> Condition -> Store -> Outcome (list Message) * Store;
  (* this.wsp.request({ action: 'stmt', ... }) *)
  wsp_stmt : Session -> Lock -> Condition -> Store ->
             Outcome (list Message) * Store;
  Messages_deleteOne :
    Session -> MessageFilter -> Lock -> Store ->
    Outcome (option DeleteResult) * Store;
  attachmentStorage_deleteMany :
    Session -> list string -> string -> Lock -> Store -> Outcome unit * Store;
  notifier_addEntries :
    Session -> Mailbox -> Entry -> Lock -> Store -> Outcome unit * Store;
  notifier_fire : string -> Store -> Outcome unit * Store;
  (* this.wsp.request({ action: 'size', ... }) *)
  wsp_size : string -> Lock -> Store -> Outcome unit * Store;
  (* this.wsp.request({ action: 'expunge', ... }) *)
  wsp_expunge :
    Session -> string -> Update -> Store ->
    Outcome (JsValue * option (list Write)) * Store;
  (* this.wsp.request({ action: 'unsubscribe', ... }) *)
  wsp_unsubscribe : Session -> string -> Store -> Outcome (list JsValue) * Store;
  refineAndLogError : JsError -> Session -> JsError;
  i18n_translate : string -> string -> string
}.

Context (svc : Services).

Definition outcome_ok {A} (r : Outcome A) : bool :=
  match r with
  | Returned _ => true
  | Threw _ => false
  end.

(** ** onExpunge *)

(** [Object.keys(map).map((key) => map[key])] when the message has an
    attachment map, [[]] otherwise. *)
Definition attachmentIds (message : Message) : list string :=
  match mimeTree message with
  | Some tree =>
      match attachmentMap tree with
      | Some map => List.map snd map
      | None => []
      end
  | None => []
  end.

(** [!update.silent || (session && session.selected &&
     session.selected.mailbox &&
     session.selected.mailbox.toString() === mailbox._id.toString())] *)
Definition notifies_session (update : Update) (session : Session)
    (mbox : Mailbox) : bool :=
  negb (silent update) ||
  match selected session with
  | Some sel =>
      match selected_mailbox sel with
      | Some m => truthy_string m && String.eqb m (mailbox_id mbox)
      | None => false
      end
  | None => false
  end.

Definition expunge_entry (session : Session) (mbox : Mailbox)
    (message : Message) : Entry :=
  {| ignore := session_id session;
     command := "EXPUNGE";
     entry_uid := uid message;
     entry_mailbox := mailbox_id mbox;
     entry_message := message_id message;
     entry_thread := thread message;
     entry_unseen := unseen message;
     entry_idate := idate message |}.

Definition deleted_one (results : option DeleteResult) : bool :=
  match results with
  | Some r => N.eqb (deletedCount r) 1
  | None => false
  end.

(** The body of [for (const result of messages)], lines 124-242.
    [convertResult] is taken as the identity on rows. *)
Definition expunge_message (is_IMAP : bool) (update : Update)
    (session : Session) (mbox : Mailbox) (lck : Lock)
    (message : Message) : M unit :=
  let flt := {| filter_id := message_id message;
                filter_mailbox := mailbox_id mbox;
                filter_uid := uid message |} in
  results <- call (Messages_deleteOne svc session flt lck) (EvDeleteOne flt) ;;
  if deleted_one results then
    let ids := attachmentIds message in
    (if (0 <? Z.of_nat (List.length ids))
     then try_catch
            (call (attachmentStorage_deleteMany svc session ids
                     (magic message) lck)
               (EvDeleteMany ids (magic message)))
            (fun err => logger LogFatal err)
     else ret tt) ;;
    (if notifies_session update session mbox
     then if is_IMAP
          then emit (EvSessionWrite (WriteArgs "EXPUNGE" (uid message)))
          else push_write (WriteArgs "EXPUNGE" (uid message))
     else ret tt) ;;
    try_catch
      (let entry := expunge_entry session mbox message in
       call (notifier_addEntries svc session mbox entry lck)
         (EvAddEntries entry) ;;
       call (notifier_fire svc (alias_id (user session)))
         (EvFire (alias_id (user session))))
      (fun err => logger LogFatal err)
  else ret tt.

(** The select, lines 110-122: through the RPC client when the
    session's database is remote, on the database otherwise. *)
Definition select_messages (session : Session) (lck : Lock)
    (condition : Condition) : Store -> Outcome (list Message) * Store :=
  if db_wsp session
  then wsp_stmt svc session lck condition
  else db_all svc session condition.

(** The inner [try] block, lines 101-242: the select and the loop. *)
Definition expunge_locked (is_IMAP : bool) (update : Update)
    (session : Session) (mbox : Mailbox) (condition : Condition)
    (lck : Lock) : M unit :=
  msgs <- call (select_messages session lck condition)
            (EvSelect (db_wsp session) condition) ;;
  for_of msgs (expunge_message is_IMAP update session mbox lck).

(** Replays the writes an RPC reply carries, lines 50-58. *)
Definition replay_writes (ws : option (list Write)) : M unit :=
  match ws with
  | Some writes => for_of writes (fun w => emit (EvSessionWrite w))
  | None => ret tt
  end.

(** The [condition] of the select, lines 86-91. *)
Definition expunge_condition (update : Update) (mbox : Mailbox) : Condition :=
  {| cond_mailbox := mailbox_id mbox;
     cond_undeleted := false;
     cond_uid := if isUid update
                 then Some (checkRangeQuery (messages update))
                 else None |}.

(** The delegate branch, lines 36-66. *)
Definition expunge_delegate (mailboxId : string) (update : Update)
    (session : Session) : M unit :=
  try_catch
    (reply <- call (wsp_expunge svc session mailboxId update)
                (fun r => EvRequest "expunge" (outcome_ok r)) ;;
     replay_writes (snd reply) ;;
     fn [ArgValue (fst reply)])
    (fun err => fn_error err).

(** [try { await releaseLock(this, session.db, lock) } catch (err)
    { this.logger.fatal(err, ...) }], lines 247-252 and 291-295. *)
Definition release_logged (session : Session) (lck : Lock) : M unit :=
  try_catch
    (call (releaseLock svc session lck) (EvReleaseLock lck))
    (fun e => logger LogFatal e).

(** The storage update, lines 272-282. *)
Definition update_storage (session : Session) (lck : Lock) : M unit :=
  try_catch
    (call (wsp_size svc (alias_id (user session)) lck)
       (EvSize (alias_id (user session))))
    (fun e => logger LogFatal e).

(** The backend branch of the outer [try] block, lines 68-287. *)
Definition expunge_backend (is_IMAP : bool) (mailboxId : string)
    (update : Update) (session : Session) : M unit :=
  call (refreshSession svc session "EXPUNGE")
    (fun _ => EvRefreshSession "EXPUNGE") ;;
  found <- call (Mailboxes_findOne svc session mailboxId)
             (fun _ => EvFindOne mailboxId) ;;
  match found with
  | None =>
      throw (IMAPError
               (i18n_translate svc "IMAP_MAILBOX_DOES_NOT_EXIST"
                  (locale (user session)))
               "NONEXISTENT")
  | Some mbox =>
      set_writeStream [] ;;
      let condition := expunge_condition update mbox in
      lck <- call (acquireLock svc session) EvAcquireLock ;;
      set_lock (Some lck) ;;
      err <- try_catch
               (expunge_locked is_IMAP update session mbox condition lck ;;
                ret None)
               (fun _err => ret (Some _err)) ;;
      release_logged session lck ;;
      update_storage session lck ;;
      match err with
      | Some e => throw e
      | None =>
          ws <- get_writeStream ;;
          fn [ArgValue (JsBool true); ArgWrites ws]
      end
  end.

(** The outer [catch] block, lines 288-305. *)
Definition expunge_catch (session : Session) (err : JsError) : M unit :=
  l <- get_lock ;;
  match l with
  | Some lck => if success lck then release_logged session lck else ret tt
  | None => ret tt
  end ;;
  if truthy_opt (imapResponse err)
  then logger LogError err ;;
       fn [ArgValue (JsString (default EmptyString (imapResponse err)))]
  else fn_error (refineAndLogError svc err session).

(** [onExpunge(mailboxId, update, session, fn)] with [this.constructor.name]
    given as [this_name]. *)
Definition onExpunge (this_name : string) (mailboxId : string)
    (update : Update) (session : Session) : M unit :=
  let is_IMAP := String.eqb this_name "IMAP" in
  set_lock None ;;
  try_catch
    (if is_IMAP
     then expunge_delegate mailboxId update session
     else expunge_backend is_IMAP mailboxId update session)
    (expunge_catch session).

(** ** onUnsubscribe *)

(** [onUnsubscribe(path, session, fn)]; [has_wsp] is [this.wsp]. *)
Definition onUnsubscribe (has_wsp : bool) (p : string)
    (session : Session) : M unit :=
  if has_wsp then
    try_catch
      (data <- call (wsp_unsubscribe svc session p)
                 (fun r => EvRequest "unsubscribe" (outcome_ok r)) ;;
       fn (List.map ArgValue data))
      (fun err =>
         if truthy_opt (imapResponse err)
         then fn [ArgValue (JsString (default EmptyString (imapResponse err)))]
         else fn_error err)
  else
    try_catch
      (call (refreshSession svc session "UNSUBSCRIBE")
         (fun _ => EvRefreshSession "UNSUBSCRIBE") ;;
       found <- call (Mailboxes_findOneAndUpdate svc session p
                        (SetSubscribed false))
                  (fun _ => EvFindOneAndUpdate p (SetSubscribed false)) ;;
       match found with
       | None =>
           throw (IMAPError
                    (i18n_translate svc "IMAP_MAILBOX_DOES_NOT_EXIST"
                       (locale (user session)))
                    "NONEXISTENT")
       | Some _ => fn [ArgValue (JsBool true)]
       end)
      (fun err => fn_error (refineAndLogError svc err session)).

End Handlers.

Arguments Frame Store : clear implicits.
Arguments M Store A : clear implicits.
Arguments Services Store : clear implicits.

(** ** An in-memory backend

    The models ([Mailboxes], [Messages]), the lock helper and the
    notifier are not among the files at hand.  The store below gives
    them their specified behaviour over plain tables, so that the
    handlers can be run on a concrete mailbox database. *)

Module Mem.

Record State := {
  mailboxes : list Mailbox;        (* the Mailboxes table *)
  rows : list Message;             (* the Messages table *)
  journal : list Entry;            (* the notifier's Change Entries *)
  held : bool                      (* the database's lock is taken *)
}.

Definition set_mailboxes (mbs : list Mailbox) (st : State) : State :=
  {| mailboxes := mbs; rows := rows st; journal := journal st; held := held st |}.

Definition set_rows (rs : list Message) (st : State) : State :=
  {| mailboxes := mailboxes st; rows := rs; journal := journal st; held := held st |}.

Definition set_journal (j : list Entry) (st : State) : State :=
  {| mailboxes := mailboxes st; rows := rows st; journal := j; held := held st |}.

Definition set_held (b : bool) (st : State) : State :=
  {| mailboxes := mailboxes st; rows := rows st; journal := journal st; held := b |}.

(** Modelled from the spec: [refreshSession] (helpers/refresh-session),
    "refresh session state"; there is nothing out of band to reconcile
    in a store that only the handler touches. *)
Definition refreshSession (_ : Session) (_ : string) (st : State)
  : Outcome unit * State := (Returned tt, st).

(** Modelled from the spec: [Mailboxes.findOne] (models/mailboxes),
    "resolve the target mailbox by id". *)
Definition findOne (_ : Session) (id : string) (st : State)
  : Outcome (option Mailbox) * State :=
  (Returned (List.find (fun mb => String.eqb (mailbox_id mb) id) (mailboxes st)),
   st).

Definition apply_update (u : MailboxUpdate) (mb : Mailbox) : Mailbox :=
  match u with
  | SetSubscribed b =>
      {| mailbox_id := mailbox_id mb; path := path mb; subscribed := b |}
  end.

(** Updates the first mailbox at path [p]; gives it back, or [None]. *)
Fixpoint update_first (p : string) (u : MailboxUpdate) (mbs : list Mailbox)
  : option Mailbox * list Mailbox :=
  match mbs with
  | [] => (None, [])
  | mb :: rest =>
      if String.eqb (path mb) p
      then (Some (apply_update u mb), apply_update u mb :: rest)
      else match update_first p u rest with
           | (found, rest') => (found, mb :: rest')
           end
  end.

(** Modelled from the spec: [Mailboxes.findOneAndUpdate] (models/mailboxes),
    "locate the mailbox by path ... clear its subscription flag". *)
Definition findOneAndUpdate (_ : Session) (p : string) (u : MailboxUpdate)
    (st : State) : Outcome (option Mailbox) * State :=
  match update_first p u (mailboxes st) with
  | (found, mbs) => (Returned found, set_mailboxes mbs st)
  end.

Definition lock_timeout : JsError :=
  {| message := "LockTimeout"; imapResponse := None;
     isCodeBug := false; output := None |}.

(** Modelled from the spec: [acquireLock] (helpers/lock),
    "acquire(resourceKey) -> Token | fails(LockTimeout)", one active
    token per database; the wait for a holder that never releases ends
    in the timeout. *)
Definition acquireLock (session : Session) (st : State)
  : Outcome Lock * State :=
  if held st
  then (Threw lock_timeout, st)
  else (Returned {| success := true; lock_key := alias_id (user session) |},
        set_held true st).

(** Modelled from the spec: [releaseLock] (helpers/lock), "release(Token) -> ok". *)
Definition releaseLock (_ : Session) (_ : Lock) (st : State)
  : Outcome unit * State := (Returned tt, set_held false st).

(** [condition] read as the [where] clause of the select. *)
Definition matches (c : Condition) (m : Message) : bool :=
  String.eqb (mailbox m) (cond_mailbox c)
  && Bool.eqb (undeleted m) (cond_undeleted c)
  && match cond_uid c with
     | Some uids => existsb (Z.eqb (uid m)) uids
     | None => true
     end.

Fixpoint insert_by_uid (m : Message) (l : list Message) : list Message :=
  match l with
  | [] => [m]
  | x :: rest =>
      if uid m <=? uid x then m :: x :: rest else x :: insert_by_uid m rest
  end.

(** [sort: 'uid'] *)
Definition sort_by_uid (l : list Message) : list Message :=
  fold_right insert_by_uid [] l.

(** The statement [builder.build({ type: 'select', table: 'Messages',
    condition, sort: 'uid' })] run on the table. *)
Definition select (c : Condition) (st : State) : list Message :=
  sort_by_uid (List.filter (matches c) (rows st)).

Definition db_all (_ : Session) (c : Condition) (st : State)
  : Outcome (list Message) * State := (Returned (select c st), st).

Definition wsp_stmt (_ : Session) (_ : Lock) (c : Condition) (st : State)
  : Outcome (list Message) * State := (Returned (select c st), st).

Definition filter_matches (f : MessageFilter) (m : Message) : bool :=
  String.eqb (message_id m) (filter_id f)
  && String.eqb (mailbox m) (filter_mailbox f)
  && Z.eqb (uid m) (filter_uid f).

(** Modelled from the spec: [Messages.deleteOne] (models/messages),
    "physically delete its row", reporting how many rows the deletion
    affected. *)
Definition deleteOne (_ : Session) (f : MessageFilter) (_ : Lock) (st : State)
  : Outcome (option DeleteResult) * State :=
  (Returned (Some {| deletedCount :=
                       N.of_nat (length (List.filter (filter_matches f) (rows st))) |}),
   set_rows (List.filter (fun m => negb (filter_matches f m)) (rows st)) st).

(** Modelled from the spec: [attachmentStorage.deleteMany]
    (helpers/attachment-storage); the attachment blobs are kept outside
    the tables of this store. *)
Definition deleteMany (_ : Session) (_ : list string) (_ : string) (_ : Lock)
    (st : State) : Outcome unit * State := (Returned tt, st).

(** Modelled from the spec: [notifier.addEntries] (helpers/imap-notifier),
    "appends Change Entry rows". *)
Definition addEntries (_ : Session) (_ : Mailbox) (e : Entry) (_ : Lock)
    (st : State) : Outcome unit * State :=
  (Returned tt, set_journal (journal st ++ [e]) st).

(** Modelled from the spec: [notifier.fire] (helpers/imap-notifier),
    "signals a pub/sub channel keyed by account"; the signal leaves the
    tables as they are. *)
Definition fire (_ : string) (st : State) : Outcome unit * State :=
  (Returned tt, st).

Definition wsp_size (_ : string) (_ : Lock) (st : State)
  : Outcome unit * State := (Returned tt, st).

Definition not_connected : JsError :=
  {| message := "ConnectionLost"; imapResponse := None;
     isCodeBug := false; output := None |}.

(** The backend process itself holds no RPC client for the verbs. *)
Definition wsp_expunge (_ : Session) (_ : string) (_ : Update) (st : State)
  : Outcome (JsValue * option (list Write)) * State :=
  (Threw not_connected, st).

Definition wsp_unsubscribe (_ : Session) (_ : string) (st : State)
  : Outcome (list JsValue) * State := (Threw not_connected, st).

(** The in-memory collaborators; [refine] and [translate] stand for
    [refineAndLogError] and [i18n.translate]. *)
Definition services (refine : JsError -> Session -> JsError)
    (translate : string -> string -> string) : Services State :=
  @Build_Services State
    refreshSession findOne findOneAndUpdate acquireLock releaseLock
    db_all wsp_stmt deleteOne deleteMany addEntries fire
    wsp_size wsp_expunge wsp_unsubscribe refine translate.

(** The same collaborators with faults injected: a row deletion or an
    attachment deletion that throws the given error. *)
Definition faulty_services (refine : JsError -> Session -> JsError)
    (translate : string -> string -> string)
    (delete_fault gc_fault : option JsError) : Services State :=
  @Build_Services State
    refreshSession findOne findOneAndUpdate acquireLock releaseLock
    db_all wsp_stmt
    (match delete_fault with
     | Some e => fun _ _ _ st => (Threw e, st)
     | None => deleteOne
     end)
    (match gc_fault with
     | Some e => fun _ _ _ _ st => (Threw e, st)
     | None => deleteMany
     end)
    addEntries fire
    wsp_size wsp_expunge wsp_unsubscribe refine translate.

Definition frame (st : State) : Frame State :=
  {| store := st; lock := None; writeStream := [] |}.

End Mem.

(** ** A front-end

    The protocol front-end keeps no store; its RPC requests end as the
    backend's reply says.  The other collaborators are not reached in
    delegate mode. *)

Module Frontend.

Definition idle {A} (a : A) (st : unit) : Outcome A * unit := (Returned a, st).

Definition services (expunge_reply : Outcome (JsValue * option (list Write)))
    (unsubscribe_reply : Outcome (list JsValue)) : Services unit :=
  @Build_Services unit
    (fun _ _ => idle tt)
    (fun _ _ => idle None)
    (fun _ _ _ => idle None)
    (fun _ => idle {| success := false; lock_key := EmptyString |})
    (fun _ _ => idle tt)
    (fun _ _ => idle [])
    (fun _ _ _ => idle [])
    (fun _ _ _ => idle None)
    (fun _ _ _ _ => idle tt)
    (fun _ _ _ _ => idle tt)
    (fun _ => idle tt)
    (fun _ _ => idle tt)
    (fun _ _ _ st => (expunge_reply, st))
    (fun _ _ st => (unsubscribe_reply, st))
    (fun e _ => e)
    (fun key _ => key).

Definition frame : Frame unit :=
  {| store := tt; lock := None; writeStream := [] |}.

End Frontend.

(** ** The SQLite websocket server ([src/unnamed/part_002]) *)

(** What [auth(request)] of basic-auth yields when it parses. *)
Record Credentials := {
  cred_name : string;
  cred_pass : string
}.

Definition CRLF : string := String "013"%char (String "010"%char EmptyString).

(** [`${n}`] for a number. *)
Definition show_N (n : N) : string := NilEmpty.string_of_uint (N.to_uint n).

(** [`HTTP/1.1 ${err?.output?.statusCode || 401} ${
      err?.output?.payload?.error || 'Unauthorized'}\r\n\r\n`] *)
Definition status_line (err : JsError) : string :=
  let code := match output err with
              | Some o => if N.eqb (statusCode o) 0 then 401%N else statusCode o
              | None => 401%N
              end in
  let reason := match output err with
                | Some o => if truthy_string (payload_error o)
                            then payload_error o else "Unauthorized"
                | None => "Unauthorized"
                end in
  String.append "HTTP/1.1 "
    (String.append (show_N code)
       (String.append " " (String.append reason (String.append CRLF CRLF)))).

(** [err.isCodeBug = true] *)
Definition mark_code_bug (err : JsError) : JsError :=
  {| message := message err; imapResponse := imapResponse err;
     isCodeBug := true; output := output err |}.

(** What the upgrade listener does to the socket and the websocket server. *)
Inductive UpgradeEvent :=
| SocketOnError
| SocketWrite (s : string)
| SocketDestroy
| SocketRemoveErrorListener
| HandleUpgrade
| EmitConnection.

Section Upgrade.

Context {Request : Type}.
Context (auth : Request -> Outcome (option Credentials)).
Context (decrypt : string -> Outcome string).
Context (API_SECRETS : list string).
Context (translateError : string -> string).

(** [authenticate(request, socket, head, fn)]: the argument it hands to
    [fn]; [None] is [fn()]. *)
Definition authenticate (request : Request) : option JsError :=
  match auth request with
  | Threw err => Some (mark_code_bug err)
  | Returned credentials =>
      match credentials with
      | None =>
          Some (Boom_unauthorized (translateError "INVALID_API_CREDENTIALS"))
      | Some c =>
          if negb (truthy_string (cred_name c))
          then Some (Boom_unauthorized (translateError "INVALID_API_CREDENTIALS"))
          else
            match decrypt (cred_name c) with
            | Threw err => Some (mark_code_bug err)
            | Returned secret =>
                if negb (existsb (String.eqb secret) API_SECRETS)
                then Some (Boom_unauthorized (translateError "INVALID_API_TOKEN"))
                else None
            end
      end
  end.

(** [this.server.on('upgrade', (request, socket, head) => ...)] *)
Definition on_upgrade (request : Request) : list UpgradeEvent :=
  SocketOnError ::
  match authenticate request with
  | Some err => [SocketWrite (status_line err); SocketDestroy]
  | None => [SocketRemoveErrorListener; HandleUpgrade; EmitConnection]
  end.

Definition accepted (request : Request) : bool :=
  existsb (fun ev => match ev with EmitConnection => true | _ => false end)
    (on_upgrade request).

End Upgrade.

(** The [data] argument of the websocket [message] listener: a Buffer of
    bytes, or a missing value. *)
Inductive WsData :=
| DataMissing                      (* undefined, null *)
| DataBuffer (bytes : string).

(** [!data]: an object is truthy, a Buffer of no bytes too. *)
Definition data_truthy (data : WsData) : bool :=
  match data with
  | DataMissing => false
  | DataBuffer _ => true
  end.

(** [setTimeout(() => { this.uuidsReceived.delete(uuid) }, delay)] *)
Record Timer := {
  delay_ms : N;
  timer_uuid : string
}.

Record Server := {
  isAlive : bool;
  uuidsReceived : gset string;
  timers : list Timer
}.

Section Message.

(** [data.toString()]: the Buffer's bytes decoded as UTF-8. *)
Context (toString : string -> string).

Definition data_length (bytes : string) : N := N.of_nat (String.length bytes).

(** [ws.on('message', (data) => ...)]: the server afterwards, and the
    data handed to [parsePayload], if any. *)
Definition on_message (data : WsData) (srv : Server) : Server * option WsData :=
  let srv := {| isAlive := true; uuidsReceived := uuidsReceived srv;
                timers := timers srv |} in
  match data with
  | DataMissing => (srv, None)
  | DataBuffer bytes =>
      if N.eqb (data_length bytes) 4 && String.eqb (toString bytes) "ping"
      then (srv, None)
      else if N.eqb (data_length bytes) 36
      then
        let uuid := toString bytes in
        ({| isAlive := isAlive srv;
            uuidsReceived := {[uuid]} ∪ uuidsReceived srv;
            timers := timers srv ++ [{| delay_ms := 1000; timer_uuid := uuid |}] |},
         None)
      else (srv, Some data)
  end.

End Message.

(** The timer's callback runs: [this.uuidsReceived.delete(uuid)]. *)
Definition run_timer (t : Timer) (srv : Server) : Server :=
  {| isAlive := isAlive srv;
     uuidsReceived := uuidsReceived srv ∖ {[timer_uuid t]};
     timers := timers srv |}.

(** ** Reading a trace *)

Definition is_acquire (ev : Event) : bool :=
  match ev with EvAcquireLock _ => true | _ => false end.

Definition is_release (ev : Event) : bool :=
  match ev with EvReleaseLock _ _ => true | _ => false end.

Definition is_fire (ev : Event) : bool :=
  match ev with EvFire _ _ => true | _ => false end.

Definition is_delete (ev : Event) : bool :=
  match ev with EvDeleteOne _ _ => true | _ => false end.

(** How many events of a kind a trace holds. *)
Definition count (kind : Event -> bool) (evs : list Event) : nat :=
  List.length (List.filter kind evs).

(** The callback invocations of a trace. *)
Fixpoint callbacks (evs : list Event) : list Callback :=
  match evs with
  | [] => []
  | EvCallback cb :: rest => cb :: callbacks rest
  | _ :: rest => callbacks rest
  end.

(** The [Messages.deleteOne] calls of a trace. *)
Fixpoint deletions (evs : list Event)
  : list (MessageFilter * Outcome (option DeleteResult)) :=
  match evs with
  | [] => []
  | EvDeleteOne f r :: rest => (f, r) :: deletions rest
  | _ :: rest => deletions rest
  end.

(** The events the locked block of [onExpunge] can produce. *)
Definition processing (ev : Event) : bool :=
  match ev with
  | EvSelect _ _ _ | EvDeleteOne _ _ | EvDeleteMany _ _ _
  | EvAddEntries _ _ | EvFire _ _ | EvLog _ _ | EvSessionWrite _ => true
  | _ => false
  end.

(** The error that ended message processing: the one thrown by the
    select or by a row deletion, the calls of the locked block that no
    inner [try] guards. *)
Fixpoint processing_error (evs : list Event) : option JsError :=
  match evs with
  | [] => None
  | EvSelect _ _ (Threw e) :: _ => Some e
  | EvDeleteOne _ (Threw e) :: _ => Some e
  | _ :: rest => processing_error rest
  end.

Definition filter_of (mailboxId : string) (m : Message) : MessageFilter :=
  {| filter_id := message_id m; filter_mailbox := mailboxId;
     filter_uid := uid m |}.

(** [fn(null, true, writeStream)] *)
Definition fn_success (ws : list Write) : Callback :=
  {| fn_err := None; fn_args := [ArgValue (JsBool true); ArgWrites ws] |}.

(** [fn(null, code)] *)
Definition fn_code (code : string) : Callback :=
  {| fn_err := None; fn_args := [ArgValue (JsString code)] |}.

(** [fn(err)] *)
Definition fn_failure (e : JsError) : Callback :=
  {| fn_err := Some e; fn_args := [] |}.

(** How the [catch] block of [onExpunge] (lines 298-304) reports [err]. *)
Definition report {Store} (svc : Services Store) (session : Session)
    (err : JsError) : Callback :=
  if truthy_opt (imapResponse err)
  then fn_code (default EmptyString (imapResponse err))
  else fn_failure (refineAndLogError svc err session).

(** What a guarded call adds to the trace when it throws:
    [catch (err) { this.logger.fatal(err, ...) }]. *)
Definition logged {A} (r : Outcome A) : list Event :=
  match r with
  | Returned _ => []
  | Threw e => [EvLog LogFatal e]
  end.

(** The events of the lines 298-304. *)
Definition report_events {Store} (svc : Services Store) (session : Session)
    (err : JsError) : list Event :=
  if truthy_opt (imapResponse err)
  then [EvLog LogError err; EvCallback (report svc session err)]
  else [EvCallback (report svc session err)].

(** The events of the lines 290-296, [l] being the [lock] variable. *)
Definition catch_release (l : option Lock) (rel : Outcome unit) : list Event :=
  match l with
  | Some lck => if success lck then EvReleaseLock lck rel :: logged rel else []
  | None => []
  end.

(** Every [attachmentStorage.deleteMany] call of the trace comes right
    after a [Messages.deleteOne] call that reported one deleted row, and
    when it threw, the error is logged next. *)
Definition gc_guarded (evs : list Event) : Prop :=
  forall pre ids mgc rdm post,
    evs = pre ++ EvDeleteMany ids mgc rdm :: post ->
    (exists pre' f res,
       pre = pre' ++ [EvDeleteOne f (Returned (Some res))] /\
       deletedCount res = 1%N) /\
    match rdm with
    | Returned _ => True
    | Threw e => exists post', post = EvLog LogFatal e :: post'
    end.

(** The UIDs whose row deletion reported exactly one deleted row. *)
Definition expunged (evs : list Event) : list Z :=
  List.map (fun d => filter_uid (fst d))
    (List.filter
       (fun d => match snd d with
                 | Returned res => deleted_one res
                 | Threw _ => false
                 end)
       (deletions evs)).

(** The events that follow the locked block: lock release, storage
    update, logging and the callback. *)
Definition closing (ev : Event) : bool :=
  match ev with
  | EvReleaseLock _ _ | EvSize _ _ | EvLog _ _ | EvCallback _ => true
  | _ => false
  end.

Definition is_delete_many (ev : Event) : bool :=
  match ev with EvDeleteMany _ _ _ => true | _ => false end.

(** * Properties *)

Lemma count_app kind (l1 l2 : list Event) :
  count kind (l1 ++ l2) = (count kind l1 + count kind l2)%nat.
Proof. unfold count. rewrite List.filter_app, List.length_app. reflexivity. Qed.

Lemma callbacks_app (l1 l2 : list Event) :
  callbacks (l1 ++ l2) = callbacks l1 ++ callbacks l2.
Proof.
  induction l1 as [|ev l1 IH]; simpl; [reflexivity|].
  destruct ev; simpl; rewrite ?IH; reflexivity.
Qed.

Lemma deletions_app (l1 l2 : list Event) :
  deletions (l1 ++ l2) = deletions l1 ++ deletions l2.
Proof.
  induction l1 as [|ev l1 IH]; simpl; [reflexivity|].
  destruct ev; simpl; rewrite ?IH; reflexivity.
Qed.

Lemma processing_error_app (l1 l2 : list Event) :
  processing_error (l1 ++ l2) =
  match processing_error l1 with
  | Some e => Some e
  | None => processing_error l2
  end.
Proof.
  induction l1 as [|ev l1 IH]; simpl; [reflexivity|].
  destruct ev; simpl; try apply IH; destruct r; simpl; auto.
Qed.

Lemma processing_no_callbacks (evs : list Event) :
  Forall (fun ev => processing ev = true) evs -> callbacks evs = [].
Proof.
  induction 1 as [|ev evs Hev _ IH]; simpl; [reflexivity|].
  destruct ev; simpl in *; auto; discriminate.
Qed.

Lemma processing_count (kind : Event -> bool) (evs : list Event) :
  (forall ev, kind ev = true -> processing ev = false) ->
  Forall (fun ev => processing ev = true) evs -> count kind evs = 0%nat.
Proof.
  intros Hkind. unfold count.
  induction 1 as [|ev evs Hev _ IH]; simpl; [reflexivity|].
  destruct (kind ev) eqn:Hk; [|exact IH].
  apply Hkind in Hk. congruence.
Qed.

Lemma gc_guarded_none (evs : list Event) :
  Forall (fun ev => is_delete_many ev = false) evs -> gc_guarded evs.
Proof.
  intros Hall pre ids mgc rdm post ->.
  apply Forall_app in Hall as [_ Hall]. inversion Hall; discriminate.
Qed.

Lemma gc_guarded_app (t1 t2 : list Event) :
  gc_guarded t1 -> gc_guarded t2 -> gc_guarded (t1 ++ t2).
Proof.
  intros H1 H2 pre ids mgc rdm post Heq.
  apply List.app_eq_app in Heq as [k [[-> Hk]|[-> Hk]]].
  - destruct k as [|ev k]; simpl in Hk.
    + destruct (H2 [] ids mgc rdm post (eq_sym Hk)) as [(pre' & f & res & Hp & _) _].
      destruct pre'; discriminate.
    + inversion Hk; subst.
      destruct (H1 pre ids mgc rdm k eq_refl) as [Hpre Hpost].
      split; [exact Hpre|]. destruct rdm; [exact I|].
      destruct Hpost as (post' & ->). eexists. reflexivity.
  - destruct (H2 k ids mgc rdm post Hk) as [(pre' & f & res & -> & Hc) Hpost].
    split; [|exact Hpost].
    exists (t1 ++ pre'), f, res. rewrite app_assoc. auto.
Qed.

Lemma gc_guarded_cons (ev : Event) (evs : list Event) :
  is_delete_many ev = false -> gc_guarded evs -> gc_guarded (ev :: evs).
Proof.
  intros Hev H. apply (gc_guarded_app [ev] evs); [|exact H].
  apply gc_guarded_none. constructor; [exact Hev|constructor].
Qed.

Lemma expunged_app (l1 l2 : list Event) :
  expunged (l1 ++ l2) = expunged l1 ++ expunged l2.
Proof.
  unfold expunged. rewrite deletions_app, List.filter_app, List.map_app.
  reflexivity.
Qed.

Section Expunge.

Context {Store : Type} (svc : Services Store).

(** What one run of the locked block leaves behind. *)
Definition processed (fr : Frame Store) (r : Outcome unit) (fr' : Frame Store)
    (evs : list Event) : Prop :=
  lock fr' = lock fr /\
  Forall (fun ev => processing ev = true) evs /\
  processing_error evs =
    match r with Returned _ => None | Threw e => Some e end.

Ltac step_run H :=
  unfold bind, try_catch, call, logger, fn, fn_error, emit, push_write,
    get_lock, set_lock, get_writeStream, set_writeStream, ret, throw in H;
  simpl in H; repeat (case_match; simpl in H); simplify_eq.

Ltac no_such_event H :=
  simpl in H; repeat (destruct H as [H|H]; [discriminate H|]); destruct H.

Lemma expunge_message_processed is_IMAP update session mbox lck m fr r fr' evs :
  expunge_message svc is_IMAP update session mbox lck m fr = (r, fr', evs) ->
  processed fr r fr' evs.
Proof.
  intros H. unfold expunge_message in H. step_run H;
    (split; [reflexivity|split; [repeat constructor|reflexivity]]).
Qed.

Lemma expunge_message_gc is_IMAP update session mbox lck m fr r fr' evs :
  expunge_message svc is_IMAP update session mbox lck m fr = (r, fr', evs) ->
  gc_guarded evs /\
  deletions evs =
    [(filter_of (mailbox_id mbox) m,
      fst (Messages_deleteOne svc session (filter_of (mailbox_id mbox) m)
             lck (store fr)))].
Proof.
  intros H. unfold expunge_message in H. fold (filter_of (mailbox_id mbox) m) in H.
  unfold bind at 1, call at 1 in H.
  destruct (Messages_deleteOne svc session _ lck (store fr)) as [[res|e] s1].
  2:{ inversion H; subst. split; [|reflexivity].
      apply gc_guarded_none. repeat constructor. }
  simpl in H. destruct (deleted_one res) eqn:Hone.
  2:{ inversion H; subst. split; [|reflexivity].
      apply gc_guarded_none. repeat constructor. }
  destruct res as [res|]; [|discriminate]. simpl in Hone.
  apply N.eqb_eq in Hone.
  step_run H; (split; [|reflexivity]);
    intros pre ids mgc rdm post Heq;
    repeat match goal with
           | H : _ = ?l ++ EvDeleteMany _ _ _ :: _ |- _ =>
               destruct l; simpl in H; simplify_eq
           end;
    (split; [exists [], (filter_of (mailbox_id mbox) m), res; auto|]);
    first [exact I | eexists; reflexivity].
Qed.

Lemma for_of_cons {A} (x : A) (xs : list A) (body : A -> M Store unit) fr :
  for_of (x :: xs) body fr =
  match body x fr with
  | (Returned _, fr1, t1) =>
      match for_of xs body fr1 with
      | (r, fr2, t2) => (r, fr2, t1 ++ t2)
      end
  | (Threw e, fr1, t1) => (Threw e, fr1, t1)
  end.
Proof. reflexivity. Qed.

Lemma processed_seq fr r1 fr1 t1 r2 fr2 t2 :
  processed fr (Returned r1) fr1 t1 -> processed fr1 r2 fr2 t2 ->
  processed fr r2 fr2 (t1 ++ t2).
Proof.
  intros (Hl1 & Hp1 & He1) (Hl2 & Hp2 & He2). split; [congruence|].
  split; [apply Forall_app; auto|].
  rewrite processing_error_app, He1. exact He2.
Qed.

Lemma expunge_loop_processed is_IMAP update session mbox lck msgs :
  forall fr r fr' evs,
  for_of msgs (expunge_message svc is_IMAP update session mbox lck) fr
    = (r, fr', evs) ->
  processed fr r fr' evs.
Proof.
  induction msgs as [|m msgs IH]; intros fr r fr' evs H.
  - inversion H; subst. repeat split; constructor.
  - rewrite for_of_cons in H.
    destruct (expunge_message _ _ _ _ _ _ m fr) as [[r1 fr1] t1] eqn:Hm.
    apply expunge_message_processed in Hm.
    destruct r1 as [[]|e].
    + destruct (for_of msgs _ fr1) as [[r2 fr2] t2] eqn:Hl.
      apply IH in Hl. inversion H; subst.
      eapply processed_seq; eassumption.
    + inversion H; subst. exact Hm.
Qed.

Lemma expunge_locked_processed is_IMAP update session mbox condition lck
    fr r fr' evs :
  expunge_locked svc is_IMAP update session mbox condition lck fr
    = (r, fr', evs) ->
  processed fr r fr' evs.
Proof.
  unfold expunge_locked, bind. intros H. unfold call in H at 1.
  destruct (select_messages svc session lck condition (store fr))
    as [[msgs|e] s].
  - destruct (for_of msgs _ _) as [[r2 fr2] t2] eqn:Hl.
    apply expunge_loop_processed in Hl. inversion H; subst.
    destruct Hl as (Hl & Hp & He). split; [exact Hl|].
    split; [constructor; [reflexivity|exact Hp]|exact He].
  - inversion H; subst. repeat split; repeat constructor.
Qed.

Lemma release_logged_run session lck fr :
  exists rel s,
    release_logged svc session lck fr =
    (Returned tt,
     {| store := s; lock := lock fr; writeStream := writeStream fr |},
     EvReleaseLock lck rel :: logged rel).
Proof.
  unfold release_logged, try_catch, call, logger, emit.
  destruct (releaseLock svc session lck (store fr)) as [[[]|e] s];
    [exists (Returned tt), s|exists (Threw e), s]; reflexivity.
Qed.

Lemma update_storage_run session lck fr :
  exists sz s,
    update_storage svc session lck fr =
    (Returned tt,
     {| store := s; lock := lock fr; writeStream := writeStream fr |},
     EvSize (alias_id (user session)) sz :: logged sz).
Proof.
  unfold update_storage, try_catch, call, logger, emit.
  destruct (wsp_size svc _ lck (store fr)) as [[[]|e] s];
    [exists (Returned tt), s|exists (Threw e), s]; reflexivity.
Qed.

Lemma expunge_catch_run session err fr :
  exists rel s,
    expunge_catch svc session err fr =
    (Returned tt,
     {| store := s; lock := lock fr; writeStream := writeStream fr |},
     catch_release (lock fr) rel ++ report_events svc session err).
Proof.
  unfold expunge_catch, catch_release, report_events, report.
  unfold bind at 1, get_lock at 1, bind at 1.
  destruct fr as [s l ws]; simpl.
  destruct l as [lck|]; [destruct (success lck)|].
  - destruct (release_logged_run session lck
                {| store := s; lock := Some lck; writeStream := ws |})
      as (rel & s' & ->). simpl.
    exists rel, s'. destruct (truthy_opt (imapResponse err));
      simpl; rewrite ?app_nil_r; reflexivity.
  - exists (Returned tt), s. destruct (truthy_opt (imapResponse err)); reflexivity.
  - exists (Returned tt), s. destruct (truthy_opt (imapResponse err)); reflexivity.
Qed.

(** The run of a backend-mode EXPUNGE that found its mailbox and got
    the lock, given the run of the locked block. *)
Lemma onExpunge_locked_run this_name mailboxId update session fr
    s0 mbox s1 lck s2 rb frb tb :
  String.eqb this_name "IMAP" = false ->
  refreshSession svc session "EXPUNGE" (store fr) = (Returned tt, s0) ->
  Mailboxes_findOne svc session mailboxId s0 = (Returned (Some mbox), s1) ->
  acquireLock svc session s1 = (Returned lck, s2) ->
  expunge_locked svc false update session mbox
    (expunge_condition update mbox) lck
    {| store := s2; lock := Some lck; writeStream := [] |} = (rb, frb, tb) ->
  exists rel sz rel2 s,
    onExpunge svc this_name mailboxId update session fr =
    (Returned tt,
     {| store := s; lock := Some lck; writeStream := writeStream frb |},
     [EvRefreshSession "EXPUNGE"; EvFindOne mailboxId;
      EvAcquireLock (Returned lck)]
     ++ tb ++ EvReleaseLock lck rel :: logged rel
     ++ EvSize (alias_id (user session)) sz :: logged sz
     ++ match rb with
        | Returned _ => [EvCallback (fn_success (writeStream frb))]
        | Threw e =>
            catch_release (Some lck) rel2 ++ report_events svc session e
        end).
Proof.
  intros Hmode Hrefresh Hfind Hacq Hbody.
  pose proof (expunge_locked_processed _ _ _ _ _ _ _ _ _ _ Hbody)
    as (Hlock & _ & _). simpl in Hlock.
  unfold onExpunge. rewrite Hmode.
  unfold bind at 1, set_lock at 1, try_catch at 1, expunge_backend.
  unfold bind at 1, call at 1. simpl. rewrite Hrefresh.
  unfold bind at 1, call at 1. simpl. rewrite Hfind.
  unfold bind at 1, set_writeStream at 1. simpl.
  unfold bind at 1, call at 1. simpl. rewrite Hacq.
  unfold bind at 1, set_lock at 1. simpl.
  unfold bind at 1, try_catch at 1, bind at 1. rewrite Hbody.
  destruct rb as [[]|eb]; simpl.
  - unfold bind at 1.
    destruct (release_logged_run session lck frb) as (rel & s3 & ->).
    unfold bind at 1.
    destruct (update_storage_run session lck
                {| store := s3; lock := lock frb; writeStream := writeStream frb |})
      as (sz & s4 & ->). simpl.
    exists rel, sz, (Returned tt), s4. rewrite Hlock.
    rewrite ?app_nil_r. simpl. rewrite <- ?app_assoc. simpl.
    rewrite <- ?app_assoc. reflexivity.
  - unfold bind at 1.
    destruct (release_logged_run session lck frb) as (rel & s3 & ->).
    unfold bind at 1.
    destruct (update_storage_run session lck
                {| store := s3; lock := lock frb; writeStream := writeStream frb |})
      as (sz & s4 & ->). simpl.
    destruct (expunge_catch_run session eb
                {| store := s4; lock := lock frb; writeStream := writeStream frb |})
      as (rel2 & s5 & ->). simpl.
    exists rel, sz, rel2, s5. rewrite Hlock.
    rewrite ?app_nil_r. simpl. rewrite <- ?app_assoc. simpl.
    rewrite <- ?app_assoc. reflexivity.
Qed.

Lemma report_events_callbacks session e :
  callbacks (report_events svc session e) = [report svc session e].
Proof. unfold report_events. destruct (truthy_opt _); reflexivity. Qed.

Lemma report_events_last session e :
  last (report_events svc session e) = Some (EvCallback (report svc session e)).
Proof. unfold report_events. destruct (truthy_opt _); reflexivity. Qed.

Lemma logged_callbacks {A} (r : Outcome A) : callbacks (logged r) = [].
Proof. destruct r; reflexivity. Qed.

Lemma catch_release_callbacks l rel : callbacks (catch_release l rel) = [].
Proof.
  destruct l as [lck|]; simpl; [|reflexivity].
  destruct (success lck); simpl; [apply logged_callbacks|reflexivity].
Qed.

(** A backend-mode EXPUNGE that stops before it holds the lock: the
    session refresh, the mailbox lookup or the acquisition threw, or
    there is no such mailbox. *)
Lemma onExpunge_unlocked_run this_name mailboxId update session fr r fr' evs :
  String.eqb this_name "IMAP" = false ->
  onExpunge svc this_name mailboxId update session fr = (r, fr', evs) ->
  (forall s0 mbox s1 lck s2,
     refreshSession svc session "EXPUNGE" (store fr) = (Returned tt, s0) ->
     Mailboxes_findOne svc session mailboxId s0 = (Returned (Some mbox), s1) ->
     acquireLock svc session s1 = (Returned lck, s2) -> False) ->
  exists pre e,
    evs = pre ++ report_events svc session e /\
    Forall (fun ev => match ev with
                      | EvRefreshSession _ | EvFindOne _
                      | EvAcquireLock (Threw _) => True
                      | _ => False
                      end) pre.
Proof.
  intros Hmode Hrun Hno. unfold onExpunge in Hrun. rewrite Hmode in Hrun.
  unfold bind at 1, set_lock at 1, try_catch at 1, expunge_backend in Hrun.
  unfold bind at 1, call at 1 in Hrun. simpl in Hrun.
  destruct (refreshSession svc session "EXPUNGE" (store fr))
    as [[[]|e0] s0] eqn:Hrefresh.
  2:{ destruct (expunge_catch_run session e0
                  {| store := s0; lock := None; writeStream := writeStream fr |})
        as (rel & s & Hc). rewrite Hc in Hrun. inversion Hrun; subst.
      exists [EvRefreshSession "EXPUNGE"], e0. split; [reflexivity|].
      repeat constructor. }
  unfold bind at 1, call at 1 in Hrun. simpl in Hrun.
  destruct (Mailboxes_findOne svc session mailboxId s0)
    as [[[mbox|]|e1] s1] eqn:Hfind.
  2:{ unfold throw in Hrun.
      match type of Hrun with context [expunge_catch _ _ ?e ?f] =>
        destruct (expunge_catch_run session e f) as (rel & s & Hc)
      end. rewrite Hc in Hrun. inversion Hrun; subst.
      eexists [EvRefreshSession "EXPUNGE"; EvFindOne mailboxId], _.
      split; [reflexivity|]. repeat constructor. }
  2:{ match type of Hrun with context [expunge_catch _ _ ?e ?f] =>
        destruct (expunge_catch_run session e f) as (rel & s & Hc)
      end. rewrite Hc in Hrun. inversion Hrun; subst.
      eexists [EvRefreshSession "EXPUNGE"; EvFindOne mailboxId], _.
      split; [reflexivity|]. repeat constructor. }
  unfold bind at 1, set_writeStream at 1 in Hrun. simpl in Hrun.
  unfold bind at 1, call at 1 in Hrun. simpl in Hrun.
  destruct (acquireLock svc session s1) as [[l|e2] s2] eqn:Hacq.
  { exfalso. eapply Hno; first [reflexivity|eassumption]. }
  match type of Hrun with context [expunge_catch _ _ ?e ?f] =>
    destruct (expunge_catch_run session e f) as (rel & s & Hc)
  end. rewrite Hc in Hrun. inversion Hrun; subst.
  eexists [EvRefreshSession "EXPUNGE"; EvFindOne mailboxId;
           EvAcquireLock (Threw e2)], _.
  split; [reflexivity|]. repeat constructor.
Qed.

Lemma report_events_no_acquire session e l :
  ~ In (EvAcquireLock (Returned l)) (report_events svc session e).
Proof.
  unfold report_events. destruct (truthy_opt _); intros H; no_such_event H.
Qed.

(** The same run when the locked block returned, with the store it
    leaves. *)
Lemma onExpunge_locked_success this_name mailboxId update session fr
    s0 mbox s1 lck s2 frb tb rel s3 sz s4 :
  String.eqb this_name "IMAP" = false ->
  refreshSession svc session "EXPUNGE" (store fr) = (Returned tt, s0) ->
  Mailboxes_findOne svc session mailboxId s0 = (Returned (Some mbox), s1) ->
  acquireLock svc session s1 = (Returned lck, s2) ->
  expunge_locked svc false update session mbox
    (expunge_condition update mbox) lck
    {| store := s2; lock := Some lck; writeStream := [] |}
    = (Returned tt, frb, tb) ->
  releaseLock svc session lck (store frb) = (rel, s3) ->
  wsp_size svc (alias_id (user session)) lck s3 = (sz, s4) ->
  onExpunge svc this_name mailboxId update session fr =
  (Returned tt,
   {| store := s4; lock := Some lck; writeStream := writeStream frb |},
   [EvRefreshSession "EXPUNGE"; EvFindOne mailboxId;
    EvAcquireLock (Returned lck)]
   ++ tb ++ EvReleaseLock lck rel :: logged rel
   ++ EvSize (alias_id (user session)) sz :: logged sz
   ++ [EvCallback (fn_success (writeStream frb))]).
Proof.
  intros Hmode Hrefresh Hfind Hacq Hbody Hrel Hsize.
  pose proof (expunge_locked_processed _ _ _ _ _ _ _ _ _ _ Hbody)
    as (Hlock & _ & _). simpl in Hlock.
  unfold onExpunge. rewrite Hmode.
  unfold bind at 1, set_lock at 1, try_catch at 1, expunge_backend.
  unfold bind at 1, call at 1. simpl. rewrite Hrefresh.
  unfold bind at 1, call at 1. simpl. rewrite Hfind.
  unfold bind at 1, set_writeStream at 1. simpl.
  unfold bind at 1, call at 1. simpl. rewrite Hacq.
  unfold bind at 1, set_lock at 1. simpl.
  unfold bind at 1, try_catch at 1, bind at 1. rewrite Hbody. simpl.
  unfold bind at 1, release_logged, try_catch at 1, call at 1. rewrite Hrel.
  unfold bind at 1, update_storage, try_catch at 1, call at 1.
  destruct rel as [[]|erel]; simpl; rewrite Hsize;
    destruct sz as [[]|esz]; simpl; rewrite Hlock, ?app_nil_r; reflexivity.
Qed.

Definition early (ev : Event) : Prop :=
  match ev with
  | EvRefreshSession _ | EvFindOne _ | EvAcquireLock (Threw _) => True
  | _ => False
  end.

(** The two ways a backend-mode EXPUNGE runs. *)
Lemma onExpunge_backend_cases this_name mailboxId update session fr r fr' evs :
  String.eqb this_name "IMAP" = false ->
  onExpunge svc this_name mailboxId update session fr = (r, fr', evs) ->
  (exists pre e, evs = pre ++ report_events svc session e /\ Forall early pre)
  \/
  (exists mbox lck s2 rb frb tb rel sz rel2,
     expunge_locked svc false update session mbox
       (expunge_condition update mbox) lck
       {| store := s2; lock := Some lck; writeStream := [] |} = (rb, frb, tb) /\
     writeStream fr' = writeStream frb /\
     evs = [EvRefreshSession "EXPUNGE"; EvFindOne mailboxId;
            EvAcquireLock (Returned lck)]
           ++ tb ++ EvReleaseLock lck rel :: logged rel
           ++ EvSize (alias_id (user session)) sz :: logged sz
           ++ match rb with
              | Returned _ => [EvCallback (fn_success (writeStream frb))]
              | Threw e =>
                  catch_release (Some lck) rel2 ++ report_events svc session e
              end).
Proof.
  intros Hmode Hrun.
  destruct (refreshSession svc session "EXPUNGE" (store fr))
    as [[[]|e0] s0] eqn:Hrefresh.
  2:{ left. eapply onExpunge_unlocked_run; [exact Hmode|exact Hrun|].
      intros; congruence. }
  destruct (Mailboxes_findOne svc session mailboxId s0)
    as [[[mbox|]|e1] s1] eqn:Hfind.
  2,3: left; (eapply onExpunge_unlocked_run; [exact Hmode|exact Hrun|]);
       intros; congruence.
  destruct (acquireLock svc session s1) as [[l|e2] s2] eqn:Hacq.
  2:{ left. eapply onExpunge_unlocked_run; [exact Hmode|exact Hrun|].
      intros; congruence. }
  right.
  destruct (expunge_locked svc false update session mbox
              (expunge_condition update mbox) l
              {| store := s2; lock := Some l; writeStream := [] |})
    as [[rb frb] tb] eqn:Hbody.
  destruct (onExpunge_locked_run _ _ _ _ _ _ _ _ _ _ _ _ _
              Hmode Hrefresh Hfind Hacq Hbody) as (rel & sz & rel2 & s & Hshape).
  rewrite Hshape in Hrun. inversion Hrun; subst.
  exists mbox, l, s2, rb, frb, tb, rel, sz, rel2. auto.
Qed.

Lemma expunge_loop_gc is_IMAP update session mbox lck msgs :
  forall fr r fr' evs,
  for_of msgs (expunge_message svc is_IMAP update session mbox lck) fr
    = (r, fr', evs) ->
  gc_guarded evs /\
  (r = Returned tt ->
   List.map fst (deletions evs) = List.map (filter_of (mailbox_id mbox)) msgs).
Proof.
  induction msgs as [|m msgs IH]; intros fr r fr' evs H.
  - inversion H; subst. split; [apply gc_guarded_none; constructor|reflexivity].
  - rewrite for_of_cons in H.
    destruct (expunge_message _ _ _ _ _ _ m fr) as [[r1 fr1] t1] eqn:Hm.
    apply expunge_message_gc in Hm as [Hgc Hdel].
    destruct r1 as [[]|e].
    + destruct (for_of msgs _ fr1) as [[r2 fr2] t2] eqn:Hl.
      apply IH in Hl as [Hgc2 Hdel2]. inversion H; subst.
      split; [apply gc_guarded_app; assumption|].
      intros Hr. rewrite deletions_app, List.map_app, Hdel, (Hdel2 Hr).
      reflexivity.
    + inversion H; subst. split; [exact Hgc|discriminate].
Qed.

(** The trace of the locked block: the select, then the loop. *)
Lemma expunge_locked_shape is_IMAP update session mbox condition lck
    fr r fr' evs :
  expunge_locked svc is_IMAP update session mbox condition lck fr
    = (r, fr', evs) ->
  exists t,
    evs = EvSelect (db_wsp session) condition
            (fst (select_messages svc session lck condition (store fr))) :: t /\
    gc_guarded t /\
    match fst (select_messages svc session lck condition (store fr)) with
    | Returned msgs =>
        r = Returned tt ->
        List.map fst (deletions t) = List.map (filter_of (mailbox_id mbox)) msgs
    | Threw e => t = [] /\ r = Threw e
    end.
Proof.
  unfold expunge_locked, bind. intros H. unfold call in H at 1.
  destruct (select_messages svc session lck condition (store fr))
    as [[msgs|e] s]; simpl.
  - destruct (for_of msgs _ _) as [[r2 fr2] t2] eqn:Hl.
    apply expunge_loop_gc in Hl as [Hgc Hdel]. inversion H; subst.
    exists t2. auto.
  - inversion H; subst. exists [].
    split; [reflexivity|split; [apply gc_guarded_none; constructor|]].
    split; reflexivity.
Qed.

Lemma logged_no_gc {A} (r : Outcome A) :
  Forall (fun ev => is_delete_many ev = false) (logged r).
Proof. destruct r; repeat constructor. Qed.

Lemma report_events_no_gc session e :
  Forall (fun ev => is_delete_many ev = false) (report_events svc session e).
Proof. unfold report_events. destruct (truthy_opt _); repeat constructor. Qed.

Lemma catch_release_no_gc l rel :
  Forall (fun ev => is_delete_many ev = false) (catch_release l rel).
Proof.
  destruct l as [lck|]; simpl; [|constructor].
  destruct (success lck); [|constructor].
  constructor; [reflexivity|apply logged_no_gc].
Qed.

Lemma early_no_gc pre :
  Forall early pre -> Forall (fun ev => is_delete_many ev = false) pre.
Proof.
  apply List.Forall_impl. intros ev. destruct ev; simpl; auto; contradiction.
Qed.

Lemma logged_no_error {A} (r : Outcome A) l :
  processing_error (logged r ++ l) = processing_error l.
Proof. destruct r; reflexivity. Qed.

Lemma report_events_no_error session e :
  processing_error (report_events svc session e) = None.
Proof. unfold report_events. destruct (truthy_opt _); reflexivity. Qed.

Lemma catch_release_no_error lck rel l :
  processing_error (catch_release lck rel ++ l) = processing_error l.
Proof.
  destruct lck as [lck|]; simpl; [|reflexivity].
  destruct (success lck); simpl; [apply logged_no_error|reflexivity].
Qed.

Lemma closing_events session lck rel sz (rb : Outcome unit) cb rel2 :
  Forall (fun ev => closing ev = true)
    (EvReleaseLock lck rel :: logged rel
     ++ EvSize (alias_id (user session)) sz :: logged sz
     ++ match rb with
        | Returned _ => [EvCallback cb]
        | Threw e =>
            catch_release (Some lck) rel2 ++ report_events svc session e
        end).
Proof.
  assert (Hlog : forall A (o : Outcome A), Forall (fun ev => closing ev = true) (logged o))
    by (intros A o; destruct o; repeat constructor).
  constructor; [reflexivity|]. apply Forall_app; split; [apply Hlog|].
  constructor; [reflexivity|]. apply Forall_app; split; [apply Hlog|].
  destruct rb as [[]|e]; [repeat constructor|].
  apply Forall_app; split.
  - simpl. destruct (success lck); [|constructor].
    constructor; [reflexivity|apply Hlog].
  - unfold report_events. destruct (truthy_opt _); repeat constructor.
Qed.

Lemma closing_deletions evs :
  Forall (fun ev => closing ev = true) evs -> deletions evs = [].
Proof.
  induction 1 as [|ev evs Hev _ IH]; [reflexivity|].
  destruct ev; simpl in *; auto; discriminate.
Qed.

Lemma closing_no_error evs :
  Forall (fun ev => closing ev = true) evs -> processing_error evs = None.
Proof.
  induction 1 as [|ev evs Hev _ IH]; [reflexivity|].
  destruct ev; simpl in *; auto; discriminate.
Qed.

Lemma closing_no_gc evs :
  Forall (fun ev => closing ev = true) evs ->
  Forall (fun ev => is_delete_many ev = false) evs.
Proof.
  apply List.Forall_impl. intros ev. destruct ev; simpl; auto; discriminate.
Qed.

Lemma closing_count (kind : Event -> bool) evs :
  (forall ev, kind ev = true -> closing ev = false) ->
  Forall (fun ev => closing ev = true) evs -> count kind evs = 0%nat.
Proof.
  intros Hkind. unfold count.
  induction 1 as [|ev evs Hev _ IH]; simpl; [reflexivity|].
  destruct (kind ev) eqn:Hk; [|exact IH].
  apply Hkind in Hk. congruence.
Qed.

(** The token in a locked run's trace is the one [acquireLock] returned. *)
Lemma locked_trace_acquire mailboxId lck l tb rest :
  Forall (fun ev => processing ev = true) tb ->
  Forall (fun ev => closing ev = true) rest ->
  In (EvAcquireLock (Returned l))
    ([EvRefreshSession "EXPUNGE"; EvFindOne mailboxId;
      EvAcquireLock (Returned lck)] ++ tb ++ rest) ->
  l = lck.
Proof.
  intros Hproc Hclose Hin. simpl in Hin.
  destruct_or! Hin; try discriminate Hin; [inversion Hin; reflexivity|].
  exfalso. rewrite List.Forall_forall in Hproc, Hclose.
  apply in_app_or in Hin as [Hin|Hin];
    [apply Hproc in Hin|apply Hclose in Hin]; discriminate.
Qed.

(** C6.  In a backend-mode EXPUNGE every [attachmentStorage.deleteMany]
    call comes right after a [Messages.deleteOne] call that reported
    exactly one deleted row, and an error it throws is logged, not
    raised: whenever the lock was acquired and neither the select nor a
    row deletion threw, whatever the [deleteMany] calls did, a row
    deletion was attempted for every selected message, in order, and
    the only callback is [fn(null, true, writeStream)]. *)
Theorem onExpunge_attachment_gc this_name mailboxId update session
    fr r fr' evs :
  String.eqb this_name "IMAP" = false ->
  onExpunge svc this_name mailboxId update session fr = (r, fr', evs) ->
  gc_guarded evs /\
  (forall lck,
     In (EvAcquireLock (Returned lck)) evs ->
     processing_error evs = None ->
     exists via c msgs rest,
       evs = [EvRefreshSession "EXPUNGE"; EvFindOne mailboxId;
              EvAcquireLock (Returned lck)]
             ++ EvSelect via c (Returned msgs) :: rest /\
       List.map fst (deletions rest)
         = List.map (filter_of (cond_mailbox c)) msgs /\
       callbacks evs = [fn_success (writeStream fr')]).
Proof.
  intros Hmode Hrun.
  destruct (onExpunge_backend_cases _ _ _ _ _ _ _ _ Hmode Hrun)
    as [(pre & e & -> & Hpre)
       |(mbox & l & s2 & rb & frb & tb & rel & sz & rel2 & Hbody & Hws & ->)].
  - split.
    + apply gc_guarded_app; apply gc_guarded_none;
        [apply early_no_gc, Hpre|apply report_events_no_gc].
    + intros lck Hin _. exfalso. apply in_app_or in Hin as [Hin|Hin].
      * rewrite List.Forall_forall in Hpre. apply Hpre in Hin. exact Hin.
      * eapply report_events_no_acquire, Hin.
  - pose proof (closing_events session l rel sz rb
                  (fn_success (writeStream frb)) rel2) as Hclose.
    pose proof (expunge_locked_processed _ _ _ _ _ _ _ _ _ _ Hbody)
      as (_ & Hproc & Herr).
    apply expunge_locked_shape in Hbody as (t & -> & Hgc & Hsel).
    cbn [store] in *.
    split.
    + apply (gc_guarded_app [_; _; _]); [apply gc_guarded_none; repeat constructor|].
      apply gc_guarded_app; [apply gc_guarded_cons; [reflexivity|exact Hgc]|].
      apply gc_guarded_none, closing_no_gc, Hclose.
    + intros lck Hin Hnone.
      apply locked_trace_acquire in Hin as ->; [|exact Hproc|exact Hclose].
      rewrite (processing_error_app [_; _; _]) in Hnone.
      cbn [processing_error] in Hnone.
      rewrite processing_error_app, Herr in Hnone.
      destruct rb as [[]|eb]; [|discriminate].
      destruct (fst (select_messages svc session l
                       (expunge_condition update mbox) s2)) as [msgs|e];
        [|destruct Hsel; discriminate].
      exists (db_wsp session), (expunge_condition update mbox), msgs.
      eexists. split; [reflexivity|]. split.
      * rewrite deletions_app, (closing_deletions _ Hclose), app_nil_r.
        apply Hsel. reflexivity.
      * rewrite Hws. simpl. rewrite callbacks_app.
        inversion Hproc as [|? ? _ Hproc']; subst.
        rewrite (processing_no_callbacks t Hproc'). simpl.
        rewrite callbacks_app, logged_callbacks. simpl.
        rewrite callbacks_app, logged_callbacks. reflexivity.
Qed.

(** The writes the loop queues: one EXPUNGE per row deletion that
    reported one deleted row, when the session is to be notified. *)
Lemma expunge_message_writes update session mbox lck m fr r fr' evs :
  expunge_message svc false update session mbox lck m fr = (r, fr', evs) ->
  writeStream fr' =
  writeStream fr ++
  (if notifies_session update session mbox
   then List.map (WriteArgs "EXPUNGE") (expunged evs) else []).
Proof.
  intros H. unfold expunge_message in H. step_run H;
    unfold expunged; simpl;
    repeat match goal with
           | Hd : deleted_one _ = _ |- _ => rewrite Hd; clear Hd
           end; simpl; rewrite ?app_nil_r; reflexivity.
Qed.

Lemma expunge_loop_writes update session mbox lck msgs :
  forall fr r fr' evs,
  for_of msgs (expunge_message svc false update session mbox lck) fr
    = (r, fr', evs) ->
  writeStream fr' =
  writeStream fr ++
  (if notifies_session update session mbox
   then List.map (WriteArgs "EXPUNGE") (expunged evs) else []).
Proof.
  induction msgs as [|m msgs IH]; intros fr r fr' evs H.
  - inversion H; subst. destruct (notifies_session _ _ _); simpl;
      rewrite app_nil_r; reflexivity.
  - rewrite for_of_cons in H.
    destruct (expunge_message _ _ _ _ _ _ m fr) as [[r1 fr1] t1] eqn:Hm.
    apply expunge_message_writes in Hm.
    destruct r1 as [[]|e].
    + destruct (for_of msgs _ fr1) as [[r2 fr2] t2] eqn:Hl.
      apply IH in Hl. inversion H; subst.
      rewrite Hl, Hm, expunged_app, List.map_app.
      destruct (notifies_session _ _ _); rewrite <- app_assoc; reflexivity.
    + inversion H; subst. exact Hm.
Qed.

(** The loop goes through all the messages when no row deletion throws. *)
Lemma expunge_message_returns is_IMAP update session mbox lck m fr r fr' evs :
  expunge_message svc is_IMAP update session mbox lck m fr = (r, fr', evs) ->
  outcome_ok
    (fst (Messages_deleteOne svc session (filter_of (mailbox_id mbox) m)
            lck (store fr))) = true ->
  r = Returned tt.
Proof.
  intros H Hok. unfold expunge_message in H.
  fold (filter_of (mailbox_id mbox) m) in H.
  unfold bind at 1, call at 1 in H.
  destruct (Messages_deleteOne svc session _ lck (store fr)) as [[res|e] s1];
    [|discriminate].
  step_run H; repeat match goal with u : unit |- _ => destruct u end;
    reflexivity.
Qed.

(** C2.  A backend-mode EXPUNGE whose [acquireLock] call returned the
    token [lck] calls [releaseLock] on that token after the message
    processing and before the callback, which is the last event of the
    run and the only callback.  When the processing ended in an error,
    the callback reports that error (its response code, or the error
    itself through [refineAndLogError]); otherwise it is
    [fn(null, true, writeStream)]. *)
Theorem onExpunge_releases_lock this_name mailboxId update session
    fr r fr' evs lck :
  String.eqb this_name "IMAP" = false ->
  onExpunge svc this_name mailboxId update session fr = (r, fr', evs) ->
  In (EvAcquireLock (Returned lck)) evs ->
  exists mid rel rest cb,
    evs = [EvRefreshSession "EXPUNGE"; EvFindOne mailboxId;
           EvAcquireLock (Returned lck)]
          ++ mid ++ EvReleaseLock lck rel :: rest /\
    Forall (fun ev => processing ev = true) mid /\
    last rest = Some (EvCallback cb) /\
    callbacks evs = [cb] /\
    cb = match processing_error mid with
         | Some e => report svc session e
         | None => fn_success (writeStream fr')
         end.
Proof.
  intros Hmode Hrun Hin.
  destruct (refreshSession svc session "EXPUNGE" (store fr))
    as [[[]|e0] s0] eqn:Hrefresh.
  2:{ exfalso.
      destruct (onExpunge_unlocked_run _ _ _ _ _ _ _ _ Hmode Hrun)
        as (pre & e & -> & Hpre); [intros; congruence|].
      apply in_app_or in Hin as [Hin|Hin].
      - rewrite List.Forall_forall in Hpre. apply Hpre in Hin. exact Hin.
      - eapply report_events_no_acquire, Hin. }
  destruct (Mailboxes_findOne svc session mailboxId s0)
    as [[[mbox|]|e1] s1] eqn:Hfind.
  2,3: exfalso;
      destruct (onExpunge_unlocked_run _ _ _ _ _ _ _ _ Hmode Hrun)
        as (pre & e & -> & Hpre); [intros; congruence|];
      apply in_app_or in Hin as [Hin|Hin];
      [ rewrite List.Forall_forall in Hpre; apply Hpre in Hin; exact Hin
      | eapply report_events_no_acquire, Hin ].
  destruct (acquireLock svc session s1) as [[l|e2] s2] eqn:Hacq.
  2:{ exfalso.
      destruct (onExpunge_unlocked_run _ _ _ _ _ _ _ _ Hmode Hrun)
        as (pre & e & -> & Hpre); [intros; congruence|].
      apply in_app_or in Hin as [Hin|Hin].
      - rewrite List.Forall_forall in Hpre. apply Hpre in Hin. exact Hin.
      - eapply report_events_no_acquire, Hin. }
  destruct (expunge_locked svc false update session mbox
              (expunge_condition update mbox) l
              {| store := s2; lock := Some l; writeStream := [] |})
    as [[rb frb] tb] eqn:Hbody.
  destruct (onExpunge_locked_run _ _ _ _ _ _ _ _ _ _ _ _ _
              Hmode Hrefresh Hfind Hacq Hbody) as (rel & sz & rel2 & s & Hshape).
  rewrite Hshape in Hrun. inversion Hrun; subst. clear Hrun.
  apply expunge_locked_processed in Hbody as (_ & Hproc & Herr).
  assert (l = lck) as ->.
  { simpl in Hin. destruct_or! Hin; try discriminate Hin.
    - inversion Hin; reflexivity.
    - exfalso. apply in_app_or in Hin as [Hin|Hin].
      + rewrite List.Forall_forall in Hproc. apply Hproc in Hin. discriminate.
      + simpl in Hin. destruct Hin as [Hin|Hin]; [discriminate|].
        apply in_app_or in Hin as [Hin|Hin];
          [destruct rel; no_such_event Hin|].
        simpl in Hin. destruct Hin as [Hin|Hin]; [discriminate|].
        apply in_app_or in Hin as [Hin|Hin];
          [destruct sz; no_such_event Hin|].
        destruct rb as [[]|eb]; [no_such_event Hin|].
        apply in_app_or in Hin as [Hin|Hin].
        * simpl in Hin. destruct (success l); [|destruct Hin].
          destruct Hin as [Hin|Hin]; [discriminate|].
          destruct rel2; no_such_event Hin.
        * eapply report_events_no_acquire, Hin. }
  destruct rb as [[]|eb]; [|destruct (success lck) eqn:Hsuccess];
    (eexists tb, rel, _, _; split; [simpl; rewrite ?Hsuccess; reflexivity|];
     split; [exact Hproc|]; rewrite Herr;
     split; [|split; [|reflexivity]]);
    repeat (rewrite ?last_app, ?last_cons, ?report_events_last,
              ?callbacks_app, ?logged_callbacks, ?report_events_callbacks,
              ?(processing_no_callbacks tb Hproc); simpl);
    reflexivity.
Qed.

(** C8.  In backend mode, when [Mailboxes.findOne] finds no mailbox for
    [mailboxId], EXPUNGE calls nothing but the session refresh and that
    lookup, logs the error and ends with [fn(null, 'NONEXISTENT')]: no
    lock is acquired, no row deletion is attempted, and the store is the
    one the lookup left. *)
Theorem onExpunge_missing_mailbox this_name mailboxId update session fr s0 s1 :
  String.eqb this_name "IMAP" = false ->
  refreshSession svc session "EXPUNGE" (store fr) = (Returned tt, s0) ->
  Mailboxes_findOne svc session mailboxId s0 = (Returned None, s1) ->
  exists fr' evs,
    onExpunge svc this_name mailboxId update session fr = (Returned tt, fr', evs) /\
    evs = [EvRefreshSession "EXPUNGE"; EvFindOne mailboxId;
           EvLog LogError
             (IMAPError (i18n_translate svc "IMAP_MAILBOX_DOES_NOT_EXIST"
                           (locale (user session))) "NONEXISTENT");
           EvCallback (fn_code "NONEXISTENT")] /\
    callbacks evs = [fn_code "NONEXISTENT"] /\
    count is_acquire evs = 0%nat /\
    deletions evs = [] /\
    store fr' = s1 /\ lock fr' = None.
Proof.
  intros Hmode Hrefresh Hfind. unfold onExpunge. rewrite Hmode.
  unfold bind at 1, set_lock at 1, try_catch at 1, expunge_backend.
  unfold bind at 1, call at 1. simpl. rewrite Hrefresh.
  unfold bind at 1, call at 1. simpl. rewrite Hfind. simpl.
  eexists _, _. split; [reflexivity|]. repeat split.
Qed.

(** In delegate mode EXPUNGE hands an error of the RPC request to the
    callback as it is, whatever response code it carries. *)
Lemma onExpunge_delegate_error mailboxId update session fr err s :
  wsp_expunge svc session mailboxId update (store fr) = (Threw err, s) ->
  onExpunge svc "IMAP" mailboxId update session fr =
  (Returned tt, {| store := s; lock := None; writeStream := writeStream fr |},
   [EvRequest "expunge" false; EvCallback (fn_failure err)]).
Proof.
  intros Hreq. unfold onExpunge. simpl.
  unfold bind at 1, set_lock at 1, try_catch at 1, expunge_delegate.
  unfold try_catch at 1, bind at 1, call at 1. simpl. rewrite Hreq.
  reflexivity.
Qed.

(** In delegate mode EXPUNGE replays the writes of the reply on the
    session's stream, in order, and then reports the reply's value. *)
Lemma onExpunge_delegate_reply mailboxId update session fr v ws s :
  wsp_expunge svc session mailboxId update (store fr) = (Returned (v, ws), s) ->
  onExpunge svc "IMAP" mailboxId update session fr =
  (Returned tt, {| store := s; lock := None; writeStream := writeStream fr |},
   EvRequest "expunge" true
   :: List.map EvSessionWrite (default [] ws)
   ++ [EvCallback {| fn_err := None; fn_args := [ArgValue v] |}]).
Proof.
  intros Hreq. unfold onExpunge. simpl.
  unfold bind at 1, set_lock at 1, try_catch at 1, expunge_delegate.
  unfold try_catch at 1, bind at 1, call at 1. simpl. rewrite Hreq.
  unfold bind at 1.
  assert (Hreplay : forall fr0 : Frame Store,
            replay_writes ws fr0
            = (Returned tt, fr0, List.map EvSessionWrite (default [] ws))).
  { clear Hreq. intros fr0. destruct ws as [writes|]; [|reflexivity]. simpl.
    revert fr0. induction writes as [|w writes IH]; intros fr0; [reflexivity|].
    rewrite for_of_cons. unfold emit at 1. rewrite IH. reflexivity. }
  simpl. rewrite Hreplay. reflexivity.
Qed.

(** In delegate mode UNSUBSCRIBE turns an error of the RPC request that
    carries a response code into [fn(null, code)]. *)
Lemma onUnsubscribe_delegate_error p session fr err s :
  wsp_unsubscribe svc session p (store fr) = (Threw err, s) ->
  onUnsubscribe svc true p session fr =
  (Returned tt, {| store := s; lock := lock fr; writeStream := writeStream fr |},
   [EvRequest "unsubscribe" false;
    EvCallback (if truthy_opt (imapResponse err)
                then fn_code (default EmptyString (imapResponse err))
                else fn_failure err)]).
Proof.
  intros Hreq. unfold onUnsubscribe, try_catch, bind, call. rewrite Hreq.
  destruct (truthy_opt (imapResponse err)); reflexivity.
Qed.

Lemma expunge_loop_returns is_IMAP update session mbox lck msgs :
  (forall f l s, outcome_ok (fst (Messages_deleteOne svc session f l s)) = true) ->
  forall fr r fr' evs,
  for_of msgs (expunge_message svc is_IMAP update session mbox lck) fr
    = (r, fr', evs) ->
  r = Returned tt.
Proof.
  intros Hok. induction msgs as [|m msgs IH]; intros fr r fr' evs H.
  - inversion H; reflexivity.
  - rewrite for_of_cons in H.
    destruct (expunge_message _ _ _ _ _ _ m fr) as [[r1 fr1] t1] eqn:Hm.
    apply expunge_message_returns in Hm; [|apply Hok]. subst r1.
    destruct (for_of msgs _ fr1) as [[r2 fr2] t2] eqn:Hl.
    apply IH in Hl. inversion H; subst. reflexivity.
Qed.

(** The locked block is the loop over what the select returned. *)
Lemma expunge_locked_loop is_IMAP update session mbox condition lck
    fr r fr' evs msgs s :
  expunge_locked svc is_IMAP update session mbox condition lck fr
    = (r, fr', evs) ->
  select_messages svc session lck condition (store fr) = (Returned msgs, s) ->
  exists t,
    evs = EvSelect (db_wsp session) condition (Returned msgs) :: t /\
    for_of msgs (expunge_message svc is_IMAP update session mbox lck)
      {| store := s; lock := lock fr; writeStream := writeStream fr |}
    = (r, fr', t).
Proof.
  unfold expunge_locked, bind. intros H Hsel. unfold call in H at 1.
  rewrite Hsel in H.
  destruct (for_of msgs _ _) as [[r2 fr2] t2] eqn:Hl.
  inversion H; subst. exists t2. split; reflexivity.
Qed.

End Expunge.

(** ** The in-memory backend *)

Lemma ascending_map_filter {A} (f : A -> Z) (p : A -> bool) (l : list A) :
  StronglySorted Z.le (List.map f l) ->
  StronglySorted Z.le (List.map f (List.filter p l)).
Proof.
  induction l as [|x l IH]; simpl; intros H; [constructor|].
  apply StronglySorted_inv in H as [Hl Hx].
  destruct (p x); simpl; [|apply IH, Hl].
  constructor; [apply IH, Hl|].
  rewrite List.Forall_forall in *. intros y Hy.
  apply Hx. apply List.in_map_iff in Hy as (a & <- & Ha).
  apply List.filter_In in Ha as [Ha _]. apply List.in_map, Ha.
Qed.

Lemma insert_by_uid_In (m x : Message) (l : list Message) :
  In x (Mem.insert_by_uid m l) <-> x = m \/ In x l.
Proof.
  induction l as [|y l IH]; simpl.
  - intuition.
  - destruct (uid m <=? uid y); simpl; rewrite ?IH; intuition.
Qed.

Lemma sort_by_uid_In (x : Message) (l : list Message) :
  In x (Mem.sort_by_uid l) <-> In x l.
Proof.
  induction l as [|y l IH]; simpl; [reflexivity|].
  rewrite insert_by_uid_In, IH. intuition.
Qed.

Lemma insert_by_uid_ascending (m : Message) (l : list Message) :
  StronglySorted Z.le (List.map uid l) ->
  StronglySorted Z.le (List.map uid (Mem.insert_by_uid m l)).
Proof.
  induction l as [|y l IH]; simpl; intros H.
  - repeat constructor.
  - apply StronglySorted_inv in H as [Hl Hy].
    destruct (uid m <=? uid y) eqn:Hle; simpl.
    + apply Z.leb_le in Hle. constructor.
      * constructor; assumption.
      * constructor; [exact Hle|].
        rewrite List.Forall_forall in *. intros z Hz.
        specialize (Hy z Hz). lia.
    + apply Z.leb_gt in Hle. constructor; [apply IH, Hl|].
      rewrite List.Forall_forall in *. intros z Hz.
      apply List.in_map_iff in Hz as (a & <- & Ha).
      apply insert_by_uid_In in Ha as [->|Ha]; [lia|].
      apply Hy, List.in_map, Ha.
Qed.

Lemma sort_by_uid_ascending (l : list Message) :
  StronglySorted Z.le (List.map uid (Mem.sort_by_uid l)).
Proof.
  induction l as [|y l IH]; simpl; [constructor|].
  apply insert_by_uid_ascending, IH.
Qed.

Lemma matches_spec (c : Condition) (m : Message) :
  Mem.matches c m = true <->
  mailbox m = cond_mailbox c /\ undeleted m = cond_undeleted c /\
  match cond_uid c with
  | Some uids => In (uid m) uids
  | None => True
  end.
Proof.
  unfold Mem.matches. rewrite !andb_true_iff, String.eqb_eq, Bool.eqb_true_iff.
  destruct (cond_uid c) as [uids|].
  - rewrite List.existsb_exists. split.
    + intros [[H1 H2] (x & Hx & Heq)]. apply Z.eqb_eq in Heq. subst. auto.
    + intros (H1 & H2 & H3). split; [auto|].
      exists (uid m). split; [exact H3|apply Z.eqb_refl].
  - intuition.
Qed.

(** The select returns exactly the rows that satisfy the condition,
    in ascending UID order. *)
Lemma select_spec (c : Condition) (st : Mem.State) (m : Message) :
  In m (Mem.select c st) <->
  In m (Mem.rows st) /\ mailbox m = cond_mailbox c /\
  undeleted m = cond_undeleted c /\
  match cond_uid c with
  | Some uids => In (uid m) uids
  | None => True
  end.
Proof.
  unfold Mem.select. rewrite sort_by_uid_In, List.filter_In, matches_spec.
  reflexivity.
Qed.

Lemma select_ascending (c : Condition) (st : Mem.State) :
  StronglySorted Z.le (List.map uid (Mem.select c st)).
Proof. apply sort_by_uid_ascending. Qed.

Lemma find_mailbox_id (mailboxId : string) (mbs : list Mailbox) (mbox : Mailbox) :
  List.find (fun mb => String.eqb (mailbox_id mb) mailboxId) mbs = Some mbox ->
  In mbox mbs /\ mailbox_id mbox = mailboxId.
Proof.
  intros H. apply List.find_some in H as [Hin Heq].
  apply String.eqb_eq in Heq. auto.
Qed.

Section Memory.

Context (refine : JsError -> Session -> JsError).
Context (translate : string -> string -> string).

Local Abbreviation backend := (Mem.services refine translate).

(** The token the in-memory lock hands out. *)
Definition mem_lock (session : Session) : Lock :=
  {| success := true; lock_key := alias_id (user session) |}.

Lemma mem_select_messages session lck c st :
  select_messages backend session lck c st = (Returned (Mem.select c st), st).
Proof. unfold select_messages. destruct (db_wsp session); reflexivity. Qed.

(** A backend-mode EXPUNGE on the in-memory store, for a mailbox that
    exists and a lock that is free: the loop runs over the selected rows
    and the handler ends with the success callback. *)
Lemma mem_onExpunge_run this_name mailboxId update session st mbox :
  String.eqb this_name "IMAP" = false ->
  List.find (fun mb => String.eqb (mailbox_id mb) mailboxId) (Mem.mailboxes st)
    = Some mbox ->
  Mem.held st = false ->
  exists frb t,
    for_of (Mem.select (expunge_condition update mbox) (Mem.set_held true st))
      (expunge_message backend false update session mbox (mem_lock session))
      {| store := Mem.set_held true st; lock := Some (mem_lock session);
         writeStream := [] |}
    = (Returned tt, frb, t) /\
    onExpunge backend this_name mailboxId update session (Mem.frame st) =
    (Returned tt,
     {| store := Mem.set_held false (store frb);
        lock := Some (mem_lock session); writeStream := writeStream frb |},
     [EvRefreshSession "EXPUNGE"; EvFindOne mailboxId;
      EvAcquireLock (Returned (mem_lock session))]
     ++ (EvSelect (db_wsp session) (expunge_condition update mbox)
           (Returned (Mem.select (expunge_condition update mbox)
                        (Mem.set_held true st))) :: t)
     ++ [EvReleaseLock (mem_lock session) (Returned tt);
         EvSize (alias_id (user session)) (Returned tt);
         EvCallback (fn_success (writeStream frb))]).
Proof.
  intros Hmode Hfind Hheld.
  destruct (for_of (Mem.select (expunge_condition update mbox)
                      (Mem.set_held true st))
              (expunge_message backend false update session mbox
                 (mem_lock session))
              {| store := Mem.set_held true st; lock := Some (mem_lock session);
                 writeStream := [] |}) as [[r frb] t] eqn:Hloop.
  assert (r = Returned tt) as ->.
  { eapply expunge_loop_returns; [|exact Hloop]. reflexivity. }
  exists frb, t. split; [reflexivity|].
  eapply (onExpunge_locked_success backend this_name mailboxId update session
            (Mem.frame st) st mbox st (mem_lock session) (Mem.set_held true st)
            frb _ (Returned tt) _ (Returned tt) _ Hmode).
  - reflexivity.
  - simpl. unfold Mem.findOne. rewrite Hfind. reflexivity.
  - simpl. unfold Mem.acquireLock. rewrite Hheld. reflexivity.
  - unfold expunge_locked, bind, call. rewrite mem_select_messages.
    simpl. rewrite Hloop. reflexivity.
  - reflexivity.
  - reflexivity.
Qed.

Lemma deletions_closing_tail (t rest : list Event) :
  Forall (fun ev => closing ev = true) rest ->
  deletions (t ++ rest) = deletions t.
Proof.
  intros H. rewrite deletions_app, (closing_deletions _ H). apply app_nil_r.
Qed.

(** C3.  A backend-mode EXPUNGE on the in-memory store, for an existing
    mailbox and a free lock, selects exactly the rows of that mailbox
    whose [undeleted] flag is false (and, when [update.isUid] is set,
    whose UID the client named), in ascending UID order; it attempts the
    row deletions in that order, and the EXPUNGE writes it hands to the
    callback are in ascending UID order. *)
Theorem onExpunge_ascending_uid_order this_name mailboxId update session
    st mbox r fr' evs :
  String.eqb this_name "IMAP" = false ->
  List.find (fun mb => String.eqb (mailbox_id mb) mailboxId) (Mem.mailboxes st)
    = Some mbox ->
  Mem.held st = false ->
  onExpunge backend this_name mailboxId update session (Mem.frame st)
    = (r, fr', evs) ->
  exists selected,
    In (EvSelect (db_wsp session) (expunge_condition update mbox)
          (Returned selected)) evs /\
    (forall m,
       In m selected <->
       In m (Mem.rows st) /\ mailbox m = mailboxId /\ undeleted m = false /\
       (isUid update = true -> In (uid m) (messages update))) /\
    StronglySorted Z.le (List.map uid selected) /\
    List.map fst (deletions evs) = List.map (filter_of mailboxId) selected /\
    callbacks evs =
      [fn_success (if notifies_session update session mbox
                   then List.map (WriteArgs "EXPUNGE") (expunged evs)
                   else [])] /\
    StronglySorted Z.le (expunged evs).
Proof.
  intros Hmode Hfind Hheld Hrun.
  destruct (mem_onExpunge_run this_name mailboxId update session st mbox
              Hmode Hfind Hheld) as (frb & t & Hloop & Hshape).
  rewrite Hshape in Hrun. inversion Hrun; subst r fr' evs. clear Hrun Hshape.
  apply find_mailbox_id in Hfind as [_ Hid].
  pose proof Hloop as Hdel. apply expunge_loop_gc in Hdel as [_ Hdel].
  specialize (Hdel eq_refl). rewrite Hid in Hdel.
  pose proof Hloop as Hws. apply expunge_loop_writes in Hws.
  pose proof Hloop as Hproc.
  apply expunge_loop_processed in Hproc as (_ & Hproc & _).
  simpl in Hws.
  set (selected := Mem.select (expunge_condition update mbox)
                     (Mem.set_held true st)) in *.
  match goal with
  | |- context [callbacks ?l] => set (evs := l) in *
  end.
  assert (Hdels : deletions evs = deletions t).
  { unfold evs. simpl. apply deletions_closing_tail. repeat constructor. }
  exists selected. split; [unfold evs; simpl; auto|].
  split; [|split; [|split; [|split]]].
  - intros m. unfold selected. rewrite select_spec. simpl.
    rewrite Hid. unfold checkRangeQuery.
    destruct (isUid update); simpl; intuition congruence.
  - apply select_ascending.
  - rewrite Hdels. exact Hdel.
  - unfold expunged. rewrite Hdels. fold (expunged t). rewrite <- Hws.
    unfold evs. simpl. rewrite callbacks_app, (processing_no_callbacks t Hproc).
    reflexivity.
  - unfold expunged. rewrite Hdels.
    apply (ascending_map_filter (fun d => filter_uid (fst d))).
    rewrite <- (List.map_map fst filter_uid), Hdel, List.map_map. simpl.
    apply select_ascending.
Qed.





(** *** Deleting a row that is in the table *)

Lemma same_id_same_row (rws : list Message) (a b : Message) :
  List.NoDup (List.map message_id rws) -> In a rws -> In b rws ->
  message_id a = message_id b -> a = b.
Proof.
  induction rws as [|x rws IH]; intros Hnd Ha Hb Heq; [destruct Ha|].
  simpl in Hnd. apply List.NoDup_cons_iff in Hnd as [Hx Hnd].
  destruct Ha as [->|Ha], Hb as [->|Hb]; auto.
  - exfalso. apply Hx. rewrite Heq. apply List.in_map, Hb.
  - exfalso. apply Hx. rewrite <- Heq. apply List.in_map, Ha.
Qed.

Lemma filter_matches_row (rws : list Message) (mid : string) (m y : Message) :
  List.NoDup (List.map message_id rws) -> In m rws -> In y rws ->
  mailbox m = mid ->
  Mem.filter_matches (filter_of mid m) y = true <-> y = m.
Proof.
  intros Hnd Hm Hy Hmid. unfold Mem.filter_matches, filter_of. simpl.
  rewrite !andb_true_iff, !String.eqb_eq, Z.eqb_eq. split.
  - intros [[Hid _] _]. eapply same_id_same_row; eassumption.
  - intros ->. auto.
Qed.

Lemma filter_single (rws : list Message) (p : Message -> bool) (m : Message) :
  List.NoDup rws -> In m rws -> (forall y, In y rws -> p y = true <-> y = m) ->
  List.filter p rws = [m].
Proof.
  intros Hnd Hm Hp. apply Permutation.Permutation_length_1_inv.
  apply Permutation.NoDup_Permutation.
  - repeat constructor. intros [].
  - apply List.NoDup_filter, Hnd.
  - intros y. rewrite List.filter_In. simpl. split.
    + intros [<-|[]]. split; [exact Hm|]. apply Hp; auto.
    + intros [Hy Hpy]. left. symmetry. apply (Hp y Hy), Hpy.
Qed.

Lemma NoDup_ids_filter (p : Message -> bool) (rws : list Message) :
  List.NoDup (List.map message_id rws) ->
  List.NoDup (List.map message_id (List.filter p rws)).
Proof.
  induction rws as [|x rws IH]; simpl; intros Hnd; [constructor|].
  apply List.NoDup_cons_iff in Hnd as [Hx Hnd].
  destruct (p x); simpl; [|apply IH, Hnd].
  constructor; [|apply IH, Hnd].
  intros Hin. apply Hx. apply List.in_map_iff in Hin as (y & Hy & Hin).
  apply List.filter_In in Hin as [Hin _].
  rewrite <- Hy. apply List.in_map, Hin.
Qed.

(** The events of one iteration on the in-memory store. *)
Definition mem_block (session : Session) (mbox : Mailbox) (m : Message)
  : list Event :=
  EvDeleteOne (filter_of (mailbox_id mbox) m)
    (Returned (Some {| deletedCount := 1 |}))
  :: (if 0 <? Z.of_nat (List.length (attachmentIds m))
      then [EvDeleteMany (attachmentIds m) (magic m) (Returned tt)]
      else [])
  ++ [EvAddEntries (expunge_entry session mbox m) (Returned tt);
      EvFire (alias_id (user session)) (Returned tt)].

(** The store after one iteration. *)
Definition mem_expunged (session : Session) (mbox : Mailbox) (m : Message)
    (st : Mem.State) : Mem.State :=
  Mem.set_journal (Mem.journal st ++ [expunge_entry session mbox m])
    (Mem.set_rows
       (List.filter
          (fun y => negb (Mem.filter_matches (filter_of (mailbox_id mbox) m) y))
          (Mem.rows st)) st).

Lemma mem_expunge_message update session mbox lck m st l ws :
  List.NoDup (List.map message_id (Mem.rows st)) ->
  In m (Mem.rows st) ->
  mailbox m = mailbox_id mbox ->
  notifies_session update session mbox = true ->
  expunge_message backend false update session mbox lck m
    {| store := st; lock := l; writeStream := ws |} =
  (Returned tt,
   {| store := mem_expunged session mbox m st; lock := l;
      writeStream := ws ++ [WriteArgs "EXPUNGE" (uid m)] |},
   mem_block session mbox m).
Proof.
  intros Hnd Hm Hmbox Hnotify.
  unfold expunge_message. fold (filter_of (mailbox_id mbox) m).
  unfold bind at 1, call at 1. simpl.
  rewrite (filter_single (Mem.rows st) _ m).
  - simpl. unfold mem_block, mem_expunged.
    unfold bind, try_catch, call, push_write, ret. simpl. rewrite Hnotify.
    destruct (0 <? Z.of_nat (List.length (attachmentIds m))); reflexivity.
  - apply List.NoDup_map_inv in Hnd. exact Hnd.
  - exact Hm.
  - intros y Hy. apply (filter_matches_row (Mem.rows st)); assumption.
Qed.

Lemma select_two (c : Condition) (st : Mem.State) (m5 m9 : Message) :
  List.NoDup (List.map message_id (Mem.rows st)) ->
  uid m5 = 5 -> uid m9 = 9 ->
  (forall m, In m (Mem.rows st) /\ Mem.matches c m = true <-> m = m5 \/ m = m9) ->
  Mem.select c st = [m5; m9].
Proof.
  intros Hnd H5 H9 Hsel. unfold Mem.select.
  assert (Hperm : Permutation [m5; m9] (List.filter (Mem.matches c) (Mem.rows st))).
  { apply Permutation.NoDup_Permutation.
    - constructor; [|repeat constructor; intros []].
      intros [Heq|[]]. rewrite Heq in H9. lia.
    - apply List.NoDup_filter. apply List.NoDup_map_inv in Hnd. exact Hnd.
    - intros m. rewrite List.filter_In, Hsel. simpl. intuition. }
  apply Permutation.Permutation_length_2_inv in Hperm as [->| ->]; simpl.
  - rewrite H5, H9. reflexivity.
  - rewrite H5, H9. reflexivity.
Qed.

Lemma mem_block_callbacks session mbox m :
  callbacks (mem_block session mbox m) = [].
Proof. unfold mem_block. destruct (0 <? _); reflexivity. Qed.

Lemma mem_block_fires session mbox m :
  List.filter is_fire (mem_block session mbox m)
  = [EvFire (alias_id (user session)) (Returned tt)].
Proof. unfold mem_block. destruct (0 <? _); reflexivity. Qed.

Lemma mem_block_locks session mbox m :
  List.filter is_acquire (mem_block session mbox m) = [] /\
  List.filter is_release (mem_block session mbox m) = [].
Proof. unfold mem_block. destruct (0 <? _); split; reflexivity. Qed.

Local Opaque mem_block.

(** C1 (amended).  A backend-mode EXPUNGE on the in-memory store, with
    [update.isUid] false, on an existing mailbox whose rows with
    [undeleted] false are the two rows [m5] (UID 5) and [m9] (UID 9),
    the session being one that is notified: both rows are deleted and
    no other; the callback gets the writes EXPUNGE 5, EXPUNGE 9 in this
    order; the journal grows by one entry per UID, in this order; the
    notifier is fired once per deleted row, twice in all, for the
    session's account; the lock is acquired once and released once and
    is free afterwards. *)
Theorem onExpunge_two_deleted this_name mailboxId update session st mbox
    m5 m9 r fr' evs :
  String.eqb this_name "IMAP" = false ->
  List.find (fun mb => String.eqb (mailbox_id mb) mailboxId) (Mem.mailboxes st)
    = Some mbox ->
  Mem.held st = false ->
  isUid update = false ->
  notifies_session update session mbox = true ->
  List.NoDup (List.map message_id (Mem.rows st)) ->
  uid m5 = 5 -> uid m9 = 9 ->
  (forall m,
     In m (Mem.rows st) /\ mailbox m = mailboxId /\ undeleted m = false
     <-> m = m5 \/ m = m9) ->
  onExpunge backend this_name mailboxId update session (Mem.frame st)
    = (r, fr', evs) ->
  (forall m, In m (Mem.rows (store fr')) <->
             In m (Mem.rows st) /\ m <> m5 /\ m <> m9) /\
  callbacks evs
    = [fn_success [WriteArgs "EXPUNGE" 5; WriteArgs "EXPUNGE" 9]] /\
  Mem.journal (store fr')
    = Mem.journal st
      ++ [expunge_entry session mbox m5; expunge_entry session mbox m9] /\
  List.filter is_fire evs
    = [EvFire (alias_id (user session)) (Returned tt);
       EvFire (alias_id (user session)) (Returned tt)] /\
  count is_acquire evs = 1%nat /\
  count is_release evs = 1%nat /\
  Mem.held (store fr') = false.
Proof.
  intros Hmode Hfind Hheld Huid Hnotify Hnd H5 H9 Hrows Hrun.
  destruct (mem_onExpunge_run this_name mailboxId update session st mbox
              Hmode Hfind Hheld) as (frb & t & Hloop & Hshape).
  rewrite Hshape in Hrun. inversion Hrun; subst r fr' evs. clear Hrun Hshape.
  apply find_mailbox_id in Hfind as [_ Hid].
  assert (Hin5 : In m5 (Mem.rows st) /\ mailbox m5 = mailboxId)
    by (split; apply (Hrows m5); auto).
  assert (Hin9 : In m9 (Mem.rows st) /\ mailbox m9 = mailboxId)
    by (split; apply (Hrows m9); auto).
  destruct Hin5 as [Hin5 Hmb5], Hin9 as [Hin9 Hmb9].
  assert (Hne : m9 <> m5) by (intros Heq; rewrite Heq in H9; lia).
  rewrite (select_two _ (Mem.set_held true st) m5 m9 Hnd H5 H9) in Hloop.
  2:{ intros m. rewrite matches_spec, <- Hrows. unfold expunge_condition.
      simpl. rewrite Huid, Hid. intuition. }
  rewrite for_of_cons in Hloop.
  rewrite (mem_expunge_message update session mbox _ m5) in Hloop;
    [|exact Hnd|exact Hin5|congruence|exact Hnotify].
  rewrite for_of_cons in Hloop.
  assert (Hmatch5 : forall y, In y (Mem.rows st) ->
            Mem.filter_matches (filter_of (mailbox_id mbox) m5) y = true
            <-> y = m5).
  { intros y Hy. apply (filter_matches_row (Mem.rows st)); auto. congruence. }
  assert (Hin9' : In m9 (Mem.rows (mem_expunged session mbox m5
                                     (Mem.set_held true st)))).
  { simpl. apply List.filter_In. split; [exact Hin9|].
    apply negb_true_iff, not_true_is_false. rewrite (Hmatch5 m9 Hin9). exact Hne. }
  rewrite (mem_expunge_message update session mbox _ m9) in Hloop;
    [|apply NoDup_ids_filter, Hnd|exact Hin9'|congruence|exact Hnotify].
  simpl in Hloop. injection Hloop as <- <-. simpl.
  split; [|split; [|split; [|split; [|split; [|split]]]]].
  - intros m. rewrite !List.filter_In, !negb_true_iff. split.
    + intros [[Hm Hn5] Hn9]. split; [exact Hm|]. split.
      * intros ->. rewrite (proj2 (Hmatch5 m5 Hm) eq_refl) in Hn5. discriminate.
      * intros ->.
        rewrite (proj2 (filter_matches_row (Mem.rows st) (mailbox_id mbox)
                          m9 m9 Hnd Hm Hm ltac:(congruence)) eq_refl) in Hn9.
        discriminate.
    + intros (Hm & Hn5 & Hn9). split; [split; [exact Hm|]|].
      * apply not_true_is_false. rewrite (Hmatch5 m Hm). exact Hn5.
      * apply not_true_is_false.
        rewrite (filter_matches_row (Mem.rows st) (mailbox_id mbox) m9 m
                   Hnd Hin9 Hm ltac:(congruence)). exact Hn9.
  - rewrite !callbacks_app, !mem_block_callbacks, H5, H9. reflexivity.
  - rewrite <- app_assoc. reflexivity.
  - rewrite !List.filter_app, !mem_block_fires. reflexivity.
  - unfold count. simpl. rewrite !List.filter_app.
    rewrite (proj1 (mem_block_locks session mbox m5)),
            (proj1 (mem_block_locks session mbox m9)). reflexivity.
  - unfold count. simpl. rewrite !List.filter_app.
    rewrite (proj2 (mem_block_locks session mbox m5)),
            (proj2 (mem_block_locks session mbox m9)). reflexivity.
  - reflexivity.
Qed.

End Memory.

(** ** The websocket server *)

(** The status line of every rejection the server builds itself. *)
Definition unauthorized_line : string :=
  String.append "HTTP/1.1 401 Unauthorized" (String.append CRLF CRLF).

Lemma status_line_boom (msg : string) :
  status_line (Boom_unauthorized msg) = unauthorized_line.
Proof. reflexivity. Qed.

Lemma status_line_plain (err : JsError) :
  output err = None -> status_line (mark_code_bug err) = unauthorized_line.
Proof. intros H. unfold status_line, mark_code_bug. simpl. rewrite H. reflexivity. Qed.

Lemma secret_listed (secret : string) (secrets : list string) :
  existsb (String.eqb secret) secrets = true <-> In secret secrets.
Proof.
  rewrite List.existsb_exists. split.
  - intros (x & Hx & Heq). apply String.eqb_eq in Heq. subst. exact Hx.
  - intros H. exists secret. split; [exact H|apply String.eqb_refl].
Qed.

Lemma truthy_string_nonempty (s : string) :
  truthy_string s = true <-> s <> EmptyString.
Proof. destruct s; simpl; split; congruence. Qed.

(** C9.  The upgrade listener lets a request through to the websocket
    server exactly when basic-auth yields credentials with a non-empty
    name that decrypts to a member of [API_SECRETS].  Every other
    request gets the line "HTTP/1.1 401 Unauthorized" followed by an
    empty line written to its socket, the socket is destroyed, and
    [handleUpgrade] is not called.  The errors that [auth] and [decrypt]
    throw are plain errors, without a Boom [output]. *)
Theorem upgrade_authentication {Request : Type}
    (auth : Request -> Outcome (option Credentials))
    (decrypt : string -> Outcome string) (API_SECRETS : list string)
    (translateError : string -> string) (request : Request) :
  (forall req e, auth req = Threw e -> output e = None) ->
  (forall s e, decrypt s = Threw e -> output e = None) ->
  (accepted auth decrypt API_SECRETS translateError request = true <->
   exists c secret,
     auth request = Returned (Some c) /\
     cred_name c <> EmptyString /\
     decrypt (cred_name c) = Returned secret /\
     In secret API_SECRETS) /\
  (accepted auth decrypt API_SECRETS translateError request = true ->
   on_upgrade auth decrypt API_SECRETS translateError request
   = [SocketOnError; SocketRemoveErrorListener; HandleUpgrade; EmitConnection]) /\
  (accepted auth decrypt API_SECRETS translateError request = false ->
   on_upgrade auth decrypt API_SECRETS translateError request
   = [SocketOnError; SocketWrite unauthorized_line; SocketDestroy]).
Proof.
  intros Hauth Hdecrypt. unfold accepted, on_upgrade, authenticate.
  destruct (auth request) as [[c|]|e] eqn:Ha.
  - destruct (truthy_string (cred_name c)) eqn:Hname; simpl.
    + destruct (decrypt (cred_name c)) as [secret|e] eqn:Hd.
      * destruct (existsb (String.eqb secret) API_SECRETS) eqn:Hs; simpl.
        -- split; [|split; [reflexivity|discriminate]].
           split; [intros _|reflexivity].
           exists c, secret. repeat split; auto.
           ++ apply truthy_string_nonempty, Hname.
           ++ apply secret_listed, Hs.
        -- split; [|split; [discriminate|reflexivity]].
           split; [discriminate|].
           intros (c' & secret' & Hc & _ & Hd' & Hin).
           inversion Hc; subst c'. rewrite Hd in Hd'. inversion Hd'; subst.
           apply secret_listed in Hin. congruence.
      * simpl. rewrite (status_line_plain e (Hdecrypt _ _ Hd)).
        split; [|split; [discriminate|reflexivity]].
        split; [discriminate|].
        intros (c' & secret' & Hc & _ & Hd' & _).
        inversion Hc; subst c'. congruence.
    + split; [|split; [discriminate|reflexivity]].
      split; [discriminate|].
      intros (c' & secret' & Hc & Hne & _). inversion Hc; subst c'.
      apply truthy_string_nonempty in Hne. congruence.
  - simpl. split; [|split; [discriminate|reflexivity]].
    split; [discriminate|]. intros (c' & secret' & Hc & _). discriminate.
  - simpl. rewrite (status_line_plain e (Hauth _ _ Ha)).
    split; [|split; [discriminate|reflexivity]].
    split; [discriminate|]. intros (c' & secret' & Hc & _). discriminate.
Qed.

Definition alive (srv : Server) : Server :=
  {| isAlive := true; uuidsReceived := uuidsReceived srv; timers := timers srv |}.

(** C10 (amended).  On an inbound websocket message: a 4-byte frame
    that reads 'ping' is dropped; a 36-byte frame has its text added to
    [uuidsReceived] and a timer of 1000 ms scheduled whose callback
    removes that text again, and is dropped; the data is handed to
    [parsePayload] exactly when it is a Buffer, of any length but 36,
    the empty one included, that is not a 4-byte 'ping'. *)
Theorem on_message_frames (toString : string -> string)
    (data : WsData) (srv : Server) :
  (forall bytes,
     data = DataBuffer bytes -> data_length bytes = 4%N ->
     toString bytes = "ping" ->
     on_message toString data srv = (alive srv, None)) /\
  (forall bytes,
     data = DataBuffer bytes -> data_length bytes = 36%N ->
     let timer := {| delay_ms := 1000; timer_uuid := toString bytes |} in
     on_message toString data srv
     = ({| isAlive := true;
           uuidsReceived := {[toString bytes]} ∪ uuidsReceived srv;
           timers := timers srv ++ [timer] |}, None) /\
     toString bytes ∈ uuidsReceived (fst (on_message toString data srv)) /\
     toString bytes
       ∉ uuidsReceived (run_timer timer (fst (on_message toString data srv)))) /\
  (forall parsed,
     snd (on_message toString data srv) = Some parsed <->
     parsed = data /\
     exists bytes,
       data = DataBuffer bytes /\
       ~ (data_length bytes = 4%N /\ toString bytes = "ping") /\
       data_length bytes <> 36%N).
Proof.
  split; [|split].
  - intros bytes -> Hlen Hping. unfold on_message.
    rewrite Hlen, Hping. reflexivity.
  - intros bytes -> Hlen timer. unfold on_message. rewrite Hlen. simpl.
    split; [reflexivity|]. split; set_solver.
  - intros parsed. unfold on_message. destruct data as [|bytes]; simpl.
    + split; [discriminate|]. intros [_ (bytes & Hb & _)]. discriminate.
    + destruct (N.eqb_spec (data_length bytes) 4) as [H4|H4]; simpl.
      * destruct (String.eqb_spec (toString bytes) "ping") as [Hp|Hp]; simpl.
        -- split; [discriminate|].
           intros [_ (b & Hb & Hnot & _)]. inversion Hb; subst b.
           exfalso. apply Hnot. auto.
        -- rewrite H4. simpl. split.
           ++ intros Hs. inversion Hs; subst parsed. split; [reflexivity|].
              exists bytes. repeat split; [tauto|]. rewrite H4. discriminate.
           ++ intros [-> _]. reflexivity.
      * destruct (N.eqb_spec (data_length bytes) 36) as [H36|H36]; simpl.
        -- split; [discriminate|].
           intros [_ (b & Hb & _ & Hne)]. inversion Hb; subst b. contradiction.
        -- split.
           ++ intros Hs. inversion Hs; subst parsed. split; [reflexivity|].
              exists bytes. repeat split; [tauto|exact H36].
           ++ intros [-> _]. reflexivity.
Qed.

(** * Scenarios

    The handlers run on a small mailbox database: the mailbox INBOX
    ([m1]) with rows at the UIDs 9, 7 and 5, of which 9 and 5 are marked
    deleted, and a row of another mailbox. *)

Module Scenario.

Definition INBOX : Mailbox :=
  {| mailbox_id := "m1"; path := "INBOX"; subscribed := true |}.

Definition row (id mbox : string) (n : Z) (live : bool)
    (attachments : option (list (string * string))) : Message :=
  {| message_id := id; mailbox := mbox; uid := n; undeleted := live;
     mimeTree := Some {| attachmentMap := attachments |};
     magic := "magic"; thread := "t1"; unseen := false; idate := 0 |}.

Definition m5 : Message := row "a" "m1" 5 false (Some [("1", "att-1")]).
Definition m7 : Message := row "c" "m1" 7 true None.
Definition m9 : Message := row "b" "m1" 9 false None.
Definition other : Message := row "d" "m2" 3 false None.

Definition database : Mem.State :=
  {| Mem.mailboxes := [INBOX];
     Mem.rows := [m9; m7; m5; other];
     Mem.journal := [];
     Mem.held := false |}.

Definition session : Session :=
  {| session_id := "s1";
     user := {| alias_id := "a1"; locale := "en" |};
     remoteAddress := "::1";
     selected := None;
     db_wsp := false |}.

(** The update of the EXPUNGE command: [{ isUid: false }]. *)
Definition expunge_all : Update :=
  {| isUid := false; silent := false; messages := [] |}.

Definition refine (e : JsError) (_ : Session) : JsError := e.
Definition translate (key : string) (_ : string) : string := key.

Definition backend : Services Mem.State := Mem.services refine translate.

Definition disk_error : JsError :=
  {| message := "disk I/O error"; imapResponse := None;
     isCodeBug := false; output := None |}.

(** A backend whose row deletions throw. *)
Definition failing_delete : Services Mem.State :=
  Mem.faulty_services refine translate (Some disk_error) None.

(** A backend whose attachment deletions throw. *)
Definition failing_gc : Services Mem.State :=
  Mem.faulty_services refine translate None (Some disk_error).

Definition token : Lock := {| success := true; lock_key := "a1" |}.

(** The trace of a handler's run. *)
Definition trace {Store A} (run : Outcome A * Frame Store * list Event)
  : list Event := snd run.

Definition final {Store A} (run : Outcome A * Frame Store * list Event)
  : Frame Store := snd (fst run).

Definition outcome {Store A} (run : Outcome A * Frame Store * list Event)
  : Outcome A := fst (fst run).

Definition expunge_run :=
  onExpunge backend "SQLite" "m1" expunge_all session (Mem.frame database).

(** The same EXPUNGE when the row deletions throw. *)
Definition failing_run :=
  onExpunge failing_delete "SQLite" "m1" expunge_all session (Mem.frame database).

(** The same EXPUNGE when the attachment deletions throw. *)
Definition leaking_run :=
  onExpunge failing_gc "SQLite" "m1" expunge_all session (Mem.frame database).

(** EXPUNGE on a mailbox id that is not in the table. *)
Definition missing_run :=
  onExpunge backend "SQLite" "m404" expunge_all session (Mem.frame database).

Definition no_mailbox : JsError :=
  IMAPError "Mailbox does not exist" "NONEXISTENT".

Definition server : Server :=
  {| isAlive := false; uuidsReceived := ∅; timers := [] |}.

(** Requests carry their credentials; the name "k1" decrypts to the
    listed secret, any other name fails to decrypt. *)
Definition auth (request : option Credentials) : Outcome (option Credentials) :=
  Returned request.

Definition decrypt (name : string) : Outcome string :=
  if String.eqb name "k1" then Returned "secret-1" else Threw disk_error.

Definition API_SECRETS : list string := ["secret-1"; "secret-2"].

Definition translateError (key : string) : string := key.

End Scenario.

(** * Witnesses and counterexamples *)

(** C1, as the specification states it: one notifier fire for the two
    deleted messages.  The scenario's run fires the notifier twice. *)
Lemma onExpunge_fires_per_message :
  count is_fire (Scenario.trace Scenario.expunge_run) = 2%nat /\
  count is_fire (Scenario.trace Scenario.expunge_run) <> 1%nat.
Proof. split; vm_compute; [reflexivity|discriminate]. Qed.

Lemma onExpunge_two_deleted_witness :
  (forall m,
     In m (Mem.rows (store (Scenario.final Scenario.expunge_run))) <->
     In m (Mem.rows Scenario.database) /\ m <> Scenario.m5 /\ m <> Scenario.m9) /\
  callbacks (Scenario.trace Scenario.expunge_run)
    = [fn_success [WriteArgs "EXPUNGE" 5; WriteArgs "EXPUNGE" 9]] /\
  Mem.journal (store (Scenario.final Scenario.expunge_run))
    = Mem.journal Scenario.database
      ++ [expunge_entry Scenario.session Scenario.INBOX Scenario.m5;
          expunge_entry Scenario.session Scenario.INBOX Scenario.m9] /\
  List.filter is_fire (Scenario.trace Scenario.expunge_run)
    = [EvFire "a1" (Returned tt); EvFire "a1" (Returned tt)] /\
  count is_acquire (Scenario.trace Scenario.expunge_run) = 1%nat /\
  count is_release (Scenario.trace Scenario.expunge_run) = 1%nat /\
  Mem.held (store (Scenario.final Scenario.expunge_run)) = false.
Proof.
  apply (onExpunge_two_deleted Scenario.refine Scenario.translate
           "SQLite" "m1" Scenario.expunge_all Scenario.session
           Scenario.database Scenario.INBOX Scenario.m5 Scenario.m9
           (Scenario.outcome Scenario.expunge_run)
           (Scenario.final Scenario.expunge_run)
           (Scenario.trace Scenario.expunge_run)).
  - reflexivity.
  - reflexivity.
  - reflexivity.
  - reflexivity.
  - reflexivity.
  - repeat constructor; simpl; intuition discriminate.
  - reflexivity.
  - reflexivity.
  - intros m. simpl. split.
    + intros [Hin [Hmb Hdel]].
      destruct Hin as [<-|[<-|[<-|[<-|[]]]]]; simpl in *;
        try discriminate; auto.
    + intros [->| ->]; simpl; auto 10.
  - vm_compute. reflexivity.
Defined.

Lemma onExpunge_releases_lock_witness :
  exists mid rel rest cb,
    Scenario.trace Scenario.failing_run
    = [EvRefreshSession "EXPUNGE"; EvFindOne "m1";
       EvAcquireLock (Returned Scenario.token)]
      ++ mid ++ EvReleaseLock Scenario.token rel :: rest /\
    Forall (fun ev => processing ev = true) mid /\
    last rest = Some (EvCallback cb) /\
    callbacks (Scenario.trace Scenario.failing_run) = [cb] /\
    cb = match processing_error mid with
         | Some e => report Scenario.failing_delete Scenario.session e
         | None =>
             fn_success (writeStream (Scenario.final Scenario.failing_run))
         end.
Proof.
  apply (onExpunge_releases_lock Scenario.failing_delete
           "SQLite" "m1" Scenario.expunge_all Scenario.session
           (Mem.frame Scenario.database)
           (Scenario.outcome Scenario.failing_run)
           (Scenario.final Scenario.failing_run)
           (Scenario.trace Scenario.failing_run)
           Scenario.token).
  - reflexivity.
  - vm_compute. reflexivity.
  - vm_compute. auto.
Defined.

(** The run behind the witness above: the row deletion threw, the lock
    was released, and only then was the error handed to the callback. *)
Example failing_run_trace :
  Scenario.trace Scenario.failing_run
  = [EvRefreshSession "EXPUNGE"; EvFindOne "m1";
     EvAcquireLock (Returned Scenario.token);
     EvSelect false
       {| cond_mailbox := "m1"; cond_undeleted := false; cond_uid := None |}
       (Returned [Scenario.m5; Scenario.m9]);
     EvDeleteOne (filter_of "m1" Scenario.m5) (Threw Scenario.disk_error);
     EvReleaseLock Scenario.token (Returned tt);
     EvSize "a1" (Returned tt);
     EvReleaseLock Scenario.token (Returned tt);
     EvCallback (fn_failure Scenario.disk_error)].
Proof. vm_compute. reflexivity. Qed.

Lemma onExpunge_ascending_uid_order_witness :
  exists selected,
    In (EvSelect false (expunge_condition Scenario.expunge_all Scenario.INBOX)
          (Returned selected)) (Scenario.trace Scenario.expunge_run) /\
    (forall m,
       In m selected <->
       In m (Mem.rows Scenario.database) /\ mailbox m = "m1" /\
       undeleted m = false /\
       (isUid Scenario.expunge_all = true ->
        In (uid m) (messages Scenario.expunge_all))) /\
    StronglySorted Z.le (List.map uid selected) /\
    List.map fst (deletions (Scenario.trace Scenario.expunge_run))
      = List.map (filter_of "m1") selected /\
    callbacks (Scenario.trace Scenario.expunge_run) =
      [fn_success
         (if notifies_session Scenario.expunge_all Scenario.session Scenario.INBOX
          then List.map (WriteArgs "EXPUNGE")
                 (expunged (Scenario.trace Scenario.expunge_run))
          else [])] /\
    StronglySorted Z.le (expunged (Scenario.trace Scenario.expunge_run)).
Proof.
  apply (onExpunge_ascending_uid_order Scenario.refine Scenario.translate
           "SQLite" "m1" Scenario.expunge_all Scenario.session
           Scenario.database Scenario.INBOX
           (Scenario.outcome Scenario.expunge_run)
           (Scenario.final Scenario.expunge_run)
           (Scenario.trace Scenario.expunge_run)).
  - reflexivity.
  - reflexivity.
  - reflexivity.
  - vm_compute. reflexivity.
Defined.

Lemma onExpunge_attachment_gc_witness :
  gc_guarded (Scenario.trace Scenario.leaking_run) /\
  (forall lck,
     In (EvAcquireLock (Returned lck)) (Scenario.trace Scenario.leaking_run) ->
     processing_error (Scenario.trace Scenario.leaking_run) = None ->
     exists via c msgs rest,
       Scenario.trace Scenario.leaking_run
       = [EvRefreshSession "EXPUNGE"; EvFindOne "m1";
          EvAcquireLock (Returned lck)]
         ++ EvSelect via c (Returned msgs) :: rest /\
       List.map fst (deletions rest)
         = List.map (filter_of (cond_mailbox c)) msgs /\
       callbacks (Scenario.trace Scenario.leaking_run)
         = [fn_success (writeStream (Scenario.final Scenario.leaking_run))]).
Proof.
  apply (onExpunge_attachment_gc Scenario.failing_gc
           "SQLite" "m1" Scenario.expunge_all Scenario.session
           (Mem.frame Scenario.database)
           (Scenario.outcome Scenario.leaking_run)
           (Scenario.final Scenario.leaking_run)
           (Scenario.trace Scenario.leaking_run)).
  - reflexivity.
  - vm_compute. reflexivity.
Defined.

(** The run behind the witness above: the attachment deletion for the
    row at UID 5 threw; the error was logged, the row at UID 9 was
    still deleted and the callback reports success. *)
Example leaking_run_trace :
  Scenario.trace Scenario.leaking_run
  = [EvRefreshSession "EXPUNGE"; EvFindOne "m1";
     EvAcquireLock (Returned Scenario.token);
     EvSelect false
       {| cond_mailbox := "m1"; cond_undeleted := false; cond_uid := None |}
       (Returned [Scenario.m5; Scenario.m9]);
     EvDeleteOne (filter_of "m1" Scenario.m5)
       (Returned (Some {| deletedCount := 1 |}));
     EvDeleteMany ["att-1"] "magic" (Threw Scenario.disk_error);
     EvLog LogFatal Scenario.disk_error;
     EvAddEntries
       (expunge_entry Scenario.session Scenario.INBOX Scenario.m5) (Returned tt);
     EvFire "a1" (Returned tt);
     EvDeleteOne (filter_of "m1" Scenario.m9)
       (Returned (Some {| deletedCount := 1 |}));
     EvAddEntries
       (expunge_entry Scenario.session Scenario.INBOX Scenario.m9) (Returned tt);
     EvFire "a1" (Returned tt);
     EvReleaseLock Scenario.token (Returned tt);
     EvSize "a1" (Returned tt);
     EvCallback
       (fn_success [WriteArgs "EXPUNGE" 5; WriteArgs "EXPUNGE" 9])]
  /\ Mem.rows (store (Scenario.final Scenario.leaking_run))
     = [Scenario.m7; Scenario.other].
Proof. vm_compute. split; reflexivity. Qed.


(** Why [keeps_response_code] is asked of [refineAndLogError]: with one
    that gives back a plain error, the same UNSUBSCRIBE hands the
    callback an error without a code; the branch has no
    [if (err.imapResponse) return fn(null, err.imapResponse)] of its
    own. *)
Example onUnsubscribe_code_travels_on_error :
  callbacks
    (Scenario.trace
       (onUnsubscribe
          (Mem.services (fun _ _ => Scenario.disk_error) Scenario.translate)
          false "Archive" Scenario.session (Mem.frame Scenario.database)))
  = [fn_failure Scenario.disk_error].
Proof. vm_compute. reflexivity. Qed.

Lemma onExpunge_missing_mailbox_witness :
  exists fr' evs,
    Scenario.missing_run = (Returned tt, fr', evs) /\
    evs = [EvRefreshSession "EXPUNGE"; EvFindOne "m404";
           EvLog LogError
             (IMAPError "IMAP_MAILBOX_DOES_NOT_EXIST" "NONEXISTENT");
           EvCallback (fn_code "NONEXISTENT")] /\
    callbacks evs = [fn_code "NONEXISTENT"] /\
    count is_acquire evs = 0%nat /\
    deletions evs = [] /\
    store fr' = Scenario.database /\ lock fr' = None.
Proof.
  apply (onExpunge_missing_mailbox Scenario.backend "SQLite" "m404"
           Scenario.expunge_all Scenario.session (Mem.frame Scenario.database)
           Scenario.database Scenario.database).
  - reflexivity.
  - reflexivity.
  - reflexivity.
Defined.

Lemma upgrade_authentication_witness :
  let request := Some {| cred_name := "k1"; cred_pass := "x" |} in
  (accepted Scenario.auth Scenario.decrypt Scenario.API_SECRETS
     Scenario.translateError request = true <->
   exists c secret,
     Scenario.auth request = Returned (Some c) /\
     cred_name c <> EmptyString /\
     Scenario.decrypt (cred_name c) = Returned secret /\
     In secret Scenario.API_SECRETS) /\
  (accepted Scenario.auth Scenario.decrypt Scenario.API_SECRETS
     Scenario.translateError request = true ->
   on_upgrade Scenario.auth Scenario.decrypt Scenario.API_SECRETS
     Scenario.translateError request
   = [SocketOnError; SocketRemoveErrorListener; HandleUpgrade; EmitConnection]) /\
  (accepted Scenario.auth Scenario.decrypt Scenario.API_SECRETS
     Scenario.translateError request = false ->
   on_upgrade Scenario.auth Scenario.decrypt Scenario.API_SECRETS
     Scenario.translateError request
   = [SocketOnError; SocketWrite unauthorized_line; SocketDestroy]).
Proof.
  apply (upgrade_authentication Scenario.auth Scenario.decrypt
           Scenario.API_SECRETS Scenario.translateError
           (Some {| cred_name := "k1"; cred_pass := "x" |})).
  - intros req e H. discriminate H.
  - intros s e. unfold Scenario.decrypt.
    destruct (String.eqb s "k1"); intros H; inversion H; reflexivity.
Defined.

(** The requests of the scenario: the listed name is let through, a
    request without credentials, one with an empty name and one whose
    name does not decrypt are turned away with the same line. *)
Example upgrade_requests :
  accepted Scenario.auth Scenario.decrypt Scenario.API_SECRETS
    Scenario.translateError (Some {| cred_name := "k1"; cred_pass := "x" |})
  = true /\
  List.map (on_upgrade Scenario.auth Scenario.decrypt Scenario.API_SECRETS
              Scenario.translateError)
    [None;
     Some {| cred_name := EmptyString; cred_pass := "x" |};
     Some {| cred_name := "k2"; cred_pass := "x" |}]
  = [[SocketOnError; SocketWrite unauthorized_line; SocketDestroy];
     [SocketOnError; SocketWrite unauthorized_line; SocketDestroy];
     [SocketOnError; SocketWrite unauthorized_line; SocketDestroy]].
Proof. vm_compute. split; reflexivity. Qed.

(** C10, as the specification states it: only non-empty frames reach
    the parser.  A Buffer of no bytes is an object, so [!data] is false
    for it, and it is handed to [parsePayload]. *)
Lemma on_message_empty_frame_parsed :
  data_length EmptyString = 0%N /\
  snd (on_message (fun bytes => bytes) (DataBuffer EmptyString) Scenario.server)
  = Some (DataBuffer EmptyString).
Proof. split; reflexivity. Qed.

(** C4.  In delegate mode, when the RPC request fails with an error that
    carries the response code NONEXISTENT, UNSUBSCRIBE reports
    [fn(null, 'NONEXISTENT')] while EXPUNGE hands the error itself to
    the callback, [fn(err)]. *)
Theorem delegate_expunge_keeps_error :
  callbacks
    (Scenario.trace
       (onExpunge
          (Frontend.services (Threw Scenario.no_mailbox)
             (Threw Scenario.no_mailbox))
          "IMAP" "m1" Scenario.expunge_all Scenario.session Frontend.frame))
  = [fn_failure Scenario.no_mailbox] /\
  callbacks
    (Scenario.trace
       (onUnsubscribe
          (Frontend.services (Threw Scenario.no_mailbox)
             (Threw Scenario.no_mailbox))
          true "INBOX" Scenario.session Frontend.frame))
  = [fn_code "NONEXISTENT"].
Proof. split; reflexivity. Qed.

(** * Further properties of the handlers *)

Definition is_size (ev : Event) : bool :=
  match ev with EvSize _ _ => true | _ => false end.

Definition is_select (ev : Event) : bool :=
  match ev with EvSelect _ _ _ => true | _ => false end.

(** What must hold around an event of a trace, given the events before
    and after it. *)
Definition guarded (rule : list Event -> Event -> list Event -> Prop)
    (evs : list Event) : Prop :=
  forall pre ev post, evs = pre ++ ev :: post -> rule pre ev post.

(** The notifier's rule: an entry is added only for a row whose deletion
    reported one deleted row, the notifier is fired only right after an
    entry was added, and what either call throws is logged next. *)
Definition notifier_rule (pre : list Event) (ev : Event) (post : list Event)
  : Prop :=
  match ev with
  | EvAddEntries entry r =>
      (exists f res,
         In (EvDeleteOne f (Returned (Some res))) pre /\
         deletedCount res = 1%N /\
         filter_id f = entry_message entry /\
         filter_uid f = entry_uid entry) /\
      match r with
      | Returned _ => True
      | Threw e => exists post', post = EvLog LogFatal e :: post'
      end
  | EvFire _ r =>
      (exists pre' entry, pre = pre' ++ [EvAddEntries entry (Returned tt)]) /\
      match r with
      | Returned _ => True
      | Threw e => exists post', post = EvLog LogFatal e :: post'
      end
  | _ => True
  end.

Definition notifies (ev : Event) : bool :=
  match ev with EvAddEntries _ _ | EvFire _ _ => true | _ => false end.

Lemma guarded_app rule (t1 t2 : list Event) :
  (forall pre ev post k, rule pre ev post -> rule pre ev (post ++ k)) ->
  (forall pre ev post k, rule pre ev post -> rule (k ++ pre) ev post) ->
  guarded rule t1 -> guarded rule t2 -> guarded rule (t1 ++ t2).
Proof.
  intros Hpost Hpre H1 H2 pre ev post Heq.
  apply List.app_eq_app in Heq as [k [[-> Hk]|[-> Hk]]].
  - destruct k as [|ev' k]; simpl in Hk.
    + rewrite <- (app_nil_r pre). apply Hpre. apply H2. symmetry. exact Hk.
    + inversion Hk; subst. apply Hpost. apply H1. reflexivity.
  - apply Hpre. apply H2. exact Hk.
Qed.

Lemma notifier_rule_post pre ev post k :
  notifier_rule pre ev post -> notifier_rule pre ev (post ++ k).
Proof.
  destruct ev; simpl; auto; intros [H1 H2]; (split; [exact H1|]);
    destruct r; auto; destruct H2 as (post' & ->); eexists; reflexivity.
Qed.

Lemma notifier_rule_pre pre ev post k :
  notifier_rule pre ev post -> notifier_rule (k ++ pre) ev post.
Proof.
  destruct ev; simpl; auto; intros [H1 H2]; (split; [|exact H2]).
  - destruct H1 as (f & res & Hin & H). exists f, res.
    split; [apply in_or_app; right; exact Hin|exact H].
  - destruct H1 as (pre' & entry & ->). exists (k ++ pre'), entry.
    apply app_assoc.
Qed.

Lemma notifier_guarded_app (t1 t2 : list Event) :
  guarded notifier_rule t1 -> guarded notifier_rule t2 ->
  guarded notifier_rule (t1 ++ t2).
Proof.
  apply guarded_app; [apply notifier_rule_post|apply notifier_rule_pre].
Qed.

Lemma notifier_guarded_none (evs : list Event) :
  Forall (fun ev => notifies ev = false) evs -> guarded notifier_rule evs.
Proof.
  intros Hall pre ev post ->.
  apply Forall_app in Hall as [_ Hall]. inversion Hall as [|? ? Hev _]; subst.
  destruct ev; simpl; auto; discriminate.
Qed.

Section ExpungeMore.

Context {Store : Type} (svc : Services Store).

(** X1.  When [acquireLock] throws, a backend-mode EXPUNGE has refreshed
    the session and looked the mailbox up and does nothing more: no
    select, no row deletion, no [releaseLock] call (the [lock] variable
    is still undefined in the [catch] block) and no storage update; the
    callback reports the lock error. *)
Theorem onExpunge_lock_failure this_name mailboxId update session fr
    s0 mbox s1 e s2 :
  String.eqb this_name "IMAP" = false ->
  refreshSession svc session "EXPUNGE" (store fr) = (Returned tt, s0) ->
  Mailboxes_findOne svc session mailboxId s0 = (Returned (Some mbox), s1) ->
  acquireLock svc session s1 = (Threw e, s2) ->
  exists fr' evs,
    onExpunge svc this_name mailboxId update session fr = (Returned tt, fr', evs) /\
    evs = [EvRefreshSession "EXPUNGE"; EvFindOne mailboxId;
           EvAcquireLock (Threw e)] ++ report_events svc session e /\
    callbacks evs = [report svc session e] /\
    count is_release evs = 0%nat /\
    count is_select evs = 0%nat /\
    count is_size evs = 0%nat /\
    deletions evs = [] /\
    store fr' = s2 /\ lock fr' = None.
Proof.
  intros Hmode Hrefresh Hfind Hacq. unfold onExpunge. rewrite Hmode.
  unfold bind at 1, set_lock at 1, try_catch at 1, expunge_backend.
  unfold bind at 1, call at 1. simpl. rewrite Hrefresh.
  unfold bind at 1, call at 1. simpl. rewrite Hfind.
  unfold bind at 1, set_writeStream at 1. simpl.
  unfold bind at 1, call at 1. simpl. rewrite Hacq. simpl.
  unfold expunge_catch, report_events, report, bind, get_lock, ret,
    logger, fn, fn_error, emit. simpl.
  destruct (truthy_opt (imapResponse e)); simpl;
    (eexists _, _; split; [reflexivity|]); repeat split.
Qed.

Lemma count_cons kind (ev : Event) (evs : list Event) :
  count kind (ev :: evs) = ((if kind ev then 1 else 0) + count kind evs)%nat.
Proof. unfold count. simpl. destruct (kind ev); reflexivity. Qed.

Lemma count_logged {A} kind (r : Outcome A) :
  (forall lvl e, kind (EvLog lvl e) = false) -> count kind (logged r) = 0%nat.
Proof. intros H. destruct r; unfold count; simpl; rewrite ?H; reflexivity. Qed.

Lemma count_report kind session e :
  (forall lvl err, kind (EvLog lvl err) = false) ->
  (forall cb, kind (EvCallback cb) = false) ->
  count kind (report_events svc session e) = 0%nat.
Proof.
  intros Hl Hc. unfold report_events, count.
  destruct (truthy_opt _); simpl; rewrite ?Hl, ?Hc; reflexivity.
Qed.

Lemma processing_error_locked mailboxId lck tb rest :
  Forall (fun ev => closing ev = true) rest ->
  processing_error
    ([EvRefreshSession "EXPUNGE"; EvFindOne mailboxId;
      EvAcquireLock (Returned lck)] ++ tb ++ rest)
  = processing_error tb.
Proof.
  intros Hclose. rewrite (processing_error_app [_; _; _]).
  cbn [processing_error]. rewrite processing_error_app.
  rewrite (closing_no_error _ Hclose). destruct (processing_error tb); reflexivity.
Qed.

(** X2.  In a backend-mode EXPUNGE that got the lock, the storage update
    is requested exactly once, and [releaseLock] is called once when the
    message processing went through; when the processing threw, the
    [catch] block releases again, so that a token with [success] set is
    released twice. *)
Theorem onExpunge_release_count this_name mailboxId update session
    fr r fr' evs lck :
  String.eqb this_name "IMAP" = false ->
  onExpunge svc this_name mailboxId update session fr = (r, fr', evs) ->
  In (EvAcquireLock (Returned lck)) evs ->
  count is_size evs = 1%nat /\
  count is_acquire evs = 1%nat /\
  count is_release evs =
    match processing_error evs with
    | None => 1%nat
    | Some _ => if success lck then 2%nat else 1%nat
    end.
Proof.
  intros Hmode Hrun Hin.
  destruct (onExpunge_backend_cases svc _ _ _ _ _ _ _ _ Hmode Hrun)
    as [(pre & e & -> & Hpre)
       |(mbox & l & s2 & rb & frb & tb & rel & sz & rel2 & Hbody & Hws & ->)].
  { exfalso. apply in_app_or in Hin as [Hin|Hin].
    - rewrite List.Forall_forall in Hpre. apply Hpre in Hin. exact Hin.
    - eapply report_events_no_acquire, Hin. }
  pose proof (closing_events svc session l rel sz rb
                (fn_success (writeStream frb)) rel2) as Hclose.
  apply expunge_locked_processed in Hbody as (_ & Hproc & Herr).
  apply locked_trace_acquire in Hin; [|exact Hproc|exact Hclose].
  subst l.
  rewrite (processing_error_locked _ _ _ _ Hclose), Herr.
  rewrite !(count_app _ [_; _; _]), !(count_app _ tb).
  rewrite !(processing_count _ tb) by (try exact Hproc; intros [] ?; simpl in *; congruence).
  rewrite !count_cons, !count_app, !count_cons, !count_app.
  rewrite !count_logged by reflexivity.
  destruct rb as [[]|eb]; simpl.
  - repeat split.
  - rewrite !count_app, !count_report by reflexivity.
    destruct (success lck); simpl;
      rewrite ?count_cons, ?count_logged by reflexivity; repeat split;
      destruct rel2; reflexivity.
Qed.

Ltac step_block H :=
  unfold bind, try_catch, call, logger, fn, fn_error, emit, push_write,
    get_lock, set_lock, get_writeStream, set_writeStream, ret, throw in H;
  simpl in H; repeat (case_match; simpl in H); simplify_eq.

Lemma expunge_message_notifier is_IMAP update session mbox lck m fr r fr' evs :
  expunge_message svc is_IMAP update session mbox lck m fr = (r, fr', evs) ->
  guarded notifier_rule evs.
Proof.
  intros H. unfold expunge_message in H.
  fold (filter_of (mailbox_id mbox) m) in H.
  unfold bind at 1, call at 1 in H.
  destruct (Messages_deleteOne svc session _ lck (store fr)) as [[res|e] s1].
  2:{ inversion H; subst. apply notifier_guarded_none. repeat constructor. }
  simpl in H. destruct (deleted_one res) eqn:Hone.
  2:{ inversion H; subst. apply notifier_guarded_none. repeat constructor. }
  destruct res as [res|]; [|discriminate]. simpl in Hone.
  apply N.eqb_eq in Hone.
  step_block H; intros pre ev post Heq;
    repeat match goal with
           | Hq : _ :: _ = ?l ++ _ :: _ |- _ =>
               destruct l; simpl in Hq; simplify_eq
           | Hq : [] = ?l ++ _ :: _ |- _ => destruct l; discriminate Hq
           end;
    simpl; auto;
    repeat match goal with u : unit |- _ => destruct u end;
    try (split; [|first [exact I | eexists; reflexivity]]);
    first [ exists (filter_of (mailbox_id mbox) m), res; simpl; auto 10
          | eexists _, _; simpl; reflexivity
          | eexists [_], _; simpl; reflexivity
          | eexists [_; _], _; simpl; reflexivity
          | eexists [_; _; _], _; simpl; reflexivity
          | eexists [_; _; _; _], _; simpl; reflexivity ].
Qed.

Lemma expunge_loop_notifier is_IMAP update session mbox lck msgs :
  forall fr r fr' evs,
  for_of msgs (expunge_message svc is_IMAP update session mbox lck) fr
    = (r, fr', evs) ->
  guarded notifier_rule evs.
Proof.
  induction msgs as [|m msgs IH]; intros fr r fr' evs H.
  - inversion H; subst. apply notifier_guarded_none. constructor.
  - rewrite for_of_cons in H.
    destruct (expunge_message _ _ _ _ _ _ m fr) as [[r1 fr1] t1] eqn:Hm.
    apply expunge_message_notifier in Hm.
    destruct r1 as [[]|e].
    + destruct (for_of msgs _ fr1) as [[r2 fr2] t2] eqn:Hl.
      apply IH in Hl. inversion H; subst.
      apply notifier_guarded_app; assumption.
    + inversion H; subst. exact Hm.
Qed.

Lemma expunge_locked_notifier is_IMAP update session mbox condition lck
    fr r fr' evs :
  expunge_locked svc is_IMAP update session mbox condition lck fr
    = (r, fr', evs) ->
  guarded notifier_rule evs.
Proof.
  unfold expunge_locked, bind. intros H. unfold call in H at 1.
  destruct (select_messages svc session lck condition (store fr))
    as [[msgs|e] s].
  - destruct (for_of msgs _ _) as [[r2 fr2] t2] eqn:Hl.
    apply expunge_loop_notifier in Hl. inversion H; subst.
    apply (notifier_guarded_app [_]); [|exact Hl].
    apply notifier_guarded_none. repeat constructor.
  - inversion H; subst. apply notifier_guarded_none. repeat constructor.
Qed.

Lemma closing_no_notify evs :
  Forall (fun ev => closing ev = true) evs ->
  Forall (fun ev => notifies ev = false) evs.
Proof.
  apply List.Forall_impl. intros ev. destruct ev; simpl; auto; discriminate.
Qed.

Lemma early_no_notify pre :
  Forall early pre -> Forall (fun ev => notifies ev = false) pre.
Proof.
  apply List.Forall_impl. intros ev. destruct ev; simpl; auto; contradiction.
Qed.

(** X3.  In a backend-mode EXPUNGE the notifier gets an entry only for a
    message whose row deletion reported exactly one deleted row, with
    that message's id and UID; it is fired only right after an entry was
    added, so not when [addEntries] threw; and an error of either call
    is logged next instead of being raised. *)
Theorem onExpunge_notifier_guarded this_name mailboxId update session
    fr r fr' evs :
  String.eqb this_name "IMAP" = false ->
  onExpunge svc this_name mailboxId update session fr = (r, fr', evs) ->
  guarded notifier_rule evs.
Proof.
  intros Hmode Hrun.
  destruct (onExpunge_backend_cases svc _ _ _ _ _ _ _ _ Hmode Hrun)
    as [(pre & e & -> & Hpre)
       |(mbox & l & s2 & rb & frb & tb & rel & sz & rel2 & Hbody & Hws & ->)].
  - apply notifier_guarded_app; apply notifier_guarded_none.
    + apply early_no_notify, Hpre.
    + unfold report_events. destruct (truthy_opt _); repeat constructor.
  - pose proof (closing_events svc session l rel sz rb
                  (fn_success (writeStream frb)) rel2) as Hclose.
    apply expunge_locked_notifier in Hbody.
    apply (notifier_guarded_app [_; _; _]);
      [apply notifier_guarded_none; repeat constructor|].
    apply notifier_guarded_app; [exact Hbody|].
    apply notifier_guarded_none, closing_no_notify, Hclose.
Qed.

Lemma expunge_locked_writes update session mbox condition lck fr r fr' evs :
  expunge_locked svc false update session mbox condition lck fr
    = (r, fr', evs) ->
  writeStream fr' =
  writeStream fr ++
  (if notifies_session update session mbox
   then List.map (WriteArgs "EXPUNGE") (expunged evs) else []).
Proof.
  unfold expunge_locked, bind. intros H. unfold call in H at 1.
  destruct (select_messages svc session lck condition (store fr))
    as [[msgs|e] s].
  - destruct (for_of msgs _ _) as [[r2 fr2] t2] eqn:Hl.
    apply expunge_loop_writes in Hl. inversion H; subst. exact Hl.
  - inversion H; subst. simpl.
    destruct (notifies_session _ _ _); rewrite app_nil_r; reflexivity.
Qed.

Lemma expunged_locked mailboxId lck tb rest :
  Forall (fun ev => closing ev = true) rest ->
  expunged
    ([EvRefreshSession "EXPUNGE"; EvFindOne mailboxId;
      EvAcquireLock (Returned lck)] ++ tb ++ rest)
  = expunged tb.
Proof.
  intros Hclose. unfold expunged. simpl.
  rewrite deletions_app, (closing_deletions _ Hclose), app_nil_r.
  reflexivity.
Qed.

(** X4.  What a backend-mode EXPUNGE that went through hands to the
    callback: when [update.silent] is not set, one ['EXPUNGE', uid]
    write for every row deletion that reported one deleted row, in the
    order of the deletions; when it is set and the session has no
    mailbox selected, no write at all. *)
Theorem onExpunge_queued_writes this_name mailboxId update session
    fr r fr' evs lck :
  String.eqb this_name "IMAP" = false ->
  onExpunge svc this_name mailboxId update session fr = (r, fr', evs) ->
  In (EvAcquireLock (Returned lck)) evs ->
  processing_error evs = None ->
  (silent update = false ->
   callbacks evs = [fn_success (List.map (WriteArgs "EXPUNGE") (expunged evs))]) /\
  (silent update = true -> selected session = None ->
   callbacks evs = [fn_success []]).
Proof.
  intros Hmode Hrun Hin Hnone.
  destruct (onExpunge_backend_cases svc _ _ _ _ _ _ _ _ Hmode Hrun)
    as [(pre & e & -> & Hpre)
       |(mbox & l & s2 & rb & frb & tb & rel & sz & rel2 & Hbody & Hws & ->)].
  { exfalso. apply in_app_or in Hin as [Hin|Hin].
    - rewrite List.Forall_forall in Hpre. apply Hpre in Hin. exact Hin.
    - eapply report_events_no_acquire, Hin. }
  pose proof (closing_events svc session l rel sz rb
                (fn_success (writeStream frb)) rel2) as Hclose.
  pose proof (expunge_locked_writes _ _ _ _ _ _ _ _ _ Hbody) as Hwrites.
  apply expunge_locked_processed in Hbody as (_ & Hproc & Herr).
  rewrite (processing_error_locked _ _ _ _ Hclose), Herr in Hnone.
  destruct rb as [[]|eb]; [|discriminate].
  rewrite (expunged_locked _ _ _ _ Hclose).
  assert (Hcb : callbacks
            ([EvRefreshSession "EXPUNGE"; EvFindOne mailboxId;
              EvAcquireLock (Returned l)] ++ tb ++
             EvReleaseLock l rel :: logged rel ++
             EvSize (alias_id (user session)) sz :: logged sz ++
             [EvCallback (fn_success (writeStream frb))])
            = [fn_success (writeStream frb)]).
  { simpl. rewrite callbacks_app, (processing_no_callbacks tb Hproc). simpl.
    rewrite callbacks_app, logged_callbacks. simpl.
    rewrite callbacks_app, logged_callbacks. reflexivity. }
  rewrite Hcb, Hwrites. simpl. unfold notifies_session. split.
  - intros ->. reflexivity.
  - intros -> ->. reflexivity.
Qed.

End ExpungeMore.

(** ** Runs for the properties above *)

Module Cases.

(** The scenario's database while another holder keeps its lock. *)
Definition busy : Mem.State := Mem.set_held true Scenario.database.

Definition busy_run :=
  onExpunge Scenario.backend "SQLite" "m1" Scenario.expunge_all
    Scenario.session (Mem.frame busy).

(** A backend whose notifier cannot record entries. *)
Definition notifier_down : Services Mem.State :=
  @Build_Services Mem.State
    Mem.refreshSession Mem.findOne Mem.findOneAndUpdate Mem.acquireLock
    Mem.releaseLock Mem.db_all Mem.wsp_stmt Mem.deleteOne Mem.deleteMany
    (fun _ _ _ _ st => (Threw Scenario.disk_error, st)) Mem.fire
    Mem.wsp_size Mem.wsp_expunge Mem.wsp_unsubscribe
    Scenario.refine Scenario.translate.

Definition unnotified_run :=
  onExpunge notifier_down "SQLite" "m1" Scenario.expunge_all
    Scenario.session (Mem.frame Scenario.database).

(** [{ isUid: false, silent: true }] *)
Definition expunge_silently : Update :=
  {| isUid := false; silent := true; messages := [] |}.

Definition silent_run :=
  onExpunge Scenario.backend "SQLite" "m1" expunge_silently
    Scenario.session (Mem.frame Scenario.database).

End Cases.

Lemma onExpunge_lock_failure_witness :
  exists fr' evs,
    Cases.busy_run = (Returned tt, fr', evs) /\
    evs = [EvRefreshSession "EXPUNGE"; EvFindOne "m1";
           EvAcquireLock (Threw Mem.lock_timeout)]
          ++ report_events Scenario.backend Scenario.session Mem.lock_timeout /\
    callbacks evs = [report Scenario.backend Scenario.session Mem.lock_timeout] /\
    count is_release evs = 0%nat /\
    count is_select evs = 0%nat /\
    count is_size evs = 0%nat /\
    deletions evs = [] /\
    store fr' = Cases.busy /\
    lock fr' = None.
Proof.
  apply (onExpunge_lock_failure Scenario.backend "SQLite" "m1"
           Scenario.expunge_all Scenario.session (Mem.frame Cases.busy)
           Cases.busy Scenario.INBOX Cases.busy Mem.lock_timeout Cases.busy).
  - reflexivity.
  - reflexivity.
  - reflexivity.
  - reflexivity.
Defined.

Lemma onExpunge_release_count_witness :
  count is_size (Scenario.trace Scenario.failing_run) = 1%nat /\
  count is_acquire (Scenario.trace Scenario.failing_run) = 1%nat /\
  count is_release (Scenario.trace Scenario.failing_run) =
  match processing_error (Scenario.trace Scenario.failing_run) with
  | None => 1%nat
  | Some _ => if success Scenario.token then 2%nat else 1%nat
  end.
Proof.
  apply (onExpunge_release_count Scenario.failing_delete
           "SQLite" "m1" Scenario.expunge_all Scenario.session
           (Mem.frame Scenario.database)
           (Scenario.outcome Scenario.failing_run)
           (Scenario.final Scenario.failing_run)
           (Scenario.trace Scenario.failing_run)
           Scenario.token).
  - reflexivity.
  - vm_compute. reflexivity.
  - vm_compute. auto.
Defined.

Lemma onExpunge_notifier_guarded_witness :
  guarded notifier_rule (Scenario.trace Cases.unnotified_run).
Proof.
  apply (onExpunge_notifier_guarded Cases.notifier_down
           "SQLite" "m1" Scenario.expunge_all Scenario.session
           (Mem.frame Scenario.database)
           (Scenario.outcome Cases.unnotified_run)
           (Scenario.final Cases.unnotified_run)
           (Scenario.trace Cases.unnotified_run)).
  - reflexivity.
  - vm_compute. reflexivity.
Defined.

(** The run behind the witness above: the rows at the UIDs 5 and 9 are
    deleted, each failure of [addEntries] is logged and the notifier is
    not fired for it. *)
Example unnotified_run_summary :
  count is_delete (Scenario.trace Cases.unnotified_run) = 2%nat /\
  count is_fire (Scenario.trace Cases.unnotified_run) = 0%nat /\
  callbacks (Scenario.trace Cases.unnotified_run)
  = [fn_success [WriteArgs "EXPUNGE" 5; WriteArgs "EXPUNGE" 9]].
Proof. vm_compute. auto. Qed.

Lemma onExpunge_queued_writes_witness :
  (silent Cases.expunge_silently = false ->
   callbacks (Scenario.trace Cases.silent_run)
   = [fn_success (List.map (WriteArgs "EXPUNGE")
                    (expunged (Scenario.trace Cases.silent_run)))]) /\
  (silent Cases.expunge_silently = true ->
   selected Scenario.session = None ->
   callbacks (Scenario.trace Cases.silent_run) = [fn_success []]).
Proof.
  apply (onExpunge_queued_writes Scenario.backend
           "SQLite" "m1" Cases.expunge_silently Scenario.session
           (Mem.frame Scenario.database)
           (Scenario.outcome Cases.silent_run)
           (Scenario.final Cases.silent_run)
           (Scenario.trace Cases.silent_run)
           Scenario.token).
  - reflexivity.
  - vm_compute. reflexivity.
  - vm_compute. auto.
  - vm_compute. reflexivity.
Defined.

(** ** The callback *)

Section Callback.

Context {Store : Type} (svc : Services Store).

Lemma early_callbacks pre : Forall early pre -> callbacks pre = [].
Proof.
  induction 1 as [|ev evs Hev _ IH]; [reflexivity|].
  destruct ev; simpl in *; auto; contradiction.
Qed.

Lemma report_events_split session e :
  exists pre,
    report_events svc session e = pre ++ [EvCallback (report svc session e)] /\
    callbacks pre = [].
Proof.
  unfold report_events. destruct (truthy_opt _).
  - exists [EvLog LogError e]. split; reflexivity.
  - exists []. split; reflexivity.
Qed.

Lemma onExpunge_returns this_name mailboxId update session fr :
  fst (fst (onExpunge svc this_name mailboxId update session fr)) = Returned tt.
Proof.
  unfold onExpunge. unfold bind at 1, set_lock at 1. simpl.
  unfold try_catch at 1.
  match goal with
  | |- context [(if ?c then ?a else ?b) ?f0] =>
      destruct ((if c then a else b) f0) as [[[[]|e] f] t]
  end; [reflexivity|].
  destruct (expunge_catch_run svc session e f) as (rel & s & ->). reflexivity.
Qed.

(** X5.  Whatever the collaborators do and in either mode, EXPUNGE
    returns normally and calls [fn] exactly once, as the last thing it
    does. *)
Theorem onExpunge_calls_back_once this_name mailboxId update session fr :
  exists cb fr' evs,
    onExpunge svc this_name mailboxId update session fr
    = (Returned tt, fr', evs ++ [EvCallback cb]) /\
    callbacks evs = [].
Proof.
  destruct (String.eqb this_name "IMAP") eqn:Hmode.
  - apply String.eqb_eq in Hmode as ->.
    destruct (wsp_expunge svc session mailboxId update (store fr))
      as [[[v ws]|err] s] eqn:Hreq.
    + rewrite (onExpunge_delegate_reply svc _ _ _ _ _ _ _ Hreq).
      eexists _, _, (EvRequest "expunge" true
                     :: List.map EvSessionWrite (default [] ws)).
      split; [reflexivity|]. simpl.
      induction (default [] ws) as [|w l IH]; [reflexivity|exact IH].
    + rewrite (onExpunge_delegate_error svc _ _ _ _ _ _ Hreq).
      eexists _, _, [EvRequest "expunge" false]. split; reflexivity.
  - pose proof (onExpunge_returns this_name mailboxId update session fr) as Hret.
    destruct (onExpunge svc this_name mailboxId update session fr)
      as [[r fr'] evs] eqn:Hrun.
    simpl in Hret. subst r.
    destruct (onExpunge_backend_cases svc _ _ _ _ _ _ _ _ Hmode Hrun)
      as [(pre & e & -> & Hpre)
         |(mbox & l & s2 & rb & frb & tb & rel & sz & rel2 & Hbody & Hws & ->)].
    + destruct (report_events_split session e) as (mid & -> & Hmid).
      exists (report svc session e), fr', (pre ++ mid).
      split; [rewrite app_assoc; reflexivity|].
      rewrite callbacks_app, (early_callbacks _ Hpre), Hmid. reflexivity.
    + apply expunge_locked_processed in Hbody as (_ & Hproc & _).
      pose proof (processing_no_callbacks tb Hproc) as Htb.
      destruct rb as [[]|eb].
      * exists (fn_success (writeStream frb)), fr',
          ([EvRefreshSession "EXPUNGE"; EvFindOne mailboxId;
            EvAcquireLock (Returned l)] ++ tb ++
           EvReleaseLock l rel :: logged rel ++
           EvSize (alias_id (user session)) sz :: logged sz).
        split.
        { f_equal. rewrite <- !app_assoc. simpl. rewrite <- !app_assoc.
          reflexivity. }
        simpl. rewrite callbacks_app, Htb. simpl.
        rewrite callbacks_app, logged_callbacks. simpl.
        apply logged_callbacks.
      * destruct (report_events_split session eb) as (mid & -> & Hmid).
        pose proof (catch_release_callbacks (Some l) rel2) as Hcr.
        remember (catch_release (Some l) rel2) as cr eqn:Ecr. clear Ecr.
        exists (report svc session eb), fr',
          ([EvRefreshSession "EXPUNGE"; EvFindOne mailboxId;
            EvAcquireLock (Returned l)] ++ tb ++
           EvReleaseLock l rel :: logged rel ++
           EvSize (alias_id (user session)) sz :: logged sz ++
           cr ++ mid).
        split.
        { f_equal. rewrite <- !app_assoc. simpl. rewrite <- !app_assoc.
          simpl. rewrite <- !app_assoc. reflexivity. }
        simpl. rewrite callbacks_app, Htb. simpl.
        rewrite callbacks_app, logged_callbacks. simpl.
        rewrite callbacks_app, logged_callbacks. simpl.
        rewrite callbacks_app, Hcr. exact Hmid.
Qed.

(** X6.  Whatever the collaborators do and in either mode, UNSUBSCRIBE
    returns normally and calls [fn] exactly once, as the last thing it
    does; with [this.wsp] set it calls neither [refreshSession] nor
    [Mailboxes.findOneAndUpdate], without it it sends no request. *)
Theorem onUnsubscribe_calls_back_once has_wsp p session fr :
  exists cb fr' evs,
    onUnsubscribe svc has_wsp p session fr
    = (Returned tt, fr', evs ++ [EvCallback cb]) /\
    callbacks evs = [] /\
    Forall (fun ev =>
              match ev with
              | EvRequest _ _ => has_wsp = true
              | EvRefreshSession _ | EvFindOneAndUpdate _ _ => has_wsp = false
              | _ => False
              end) evs.
Proof.
  unfold onUnsubscribe, try_catch, bind, call, fn, fn_error, throw, emit.
  destruct has_wsp.
  - destruct (wsp_unsubscribe svc session p (store fr)) as [[data|err] s]; simpl.
    + eexists _, _, [_]. split; [reflexivity|]. split; [reflexivity|].
      repeat constructor.
    + destruct (truthy_opt (imapResponse err)); simpl;
        (eexists _, _, [_]; split; [reflexivity|]; split; [reflexivity|];
         repeat constructor).
  - destruct (refreshSession svc session "UNSUBSCRIBE" (store fr))
      as [[[]|e0] s0]; simpl.
    + destruct (Mailboxes_findOneAndUpdate svc session p (SetSubscribed false) s0)
        as [[[mbox|]|e1] s1]; simpl;
        (eexists _, _, [_; _]; split; [reflexivity|]; split; [reflexivity|];
         repeat constructor).
    + eexists _, _, [_]. split; [reflexivity|]. split; [reflexivity|].
      repeat constructor.
Qed.

End Callback.

(** ** EXPUNGE on the in-memory store, for any number of rows *)

Lemma insert_by_uid_NoDup (m : Message) (l : list Message) :
  ~ In m l -> List.NoDup l -> List.NoDup (Mem.insert_by_uid m l).
Proof.
  induction l as [|x l IH]; simpl; intros Hm Hnd.
  - constructor; [intros []|constructor].
  - apply List.NoDup_cons_iff in Hnd as [Hx Hnd].
    destruct (uid m <=? uid x).
    + constructor; [simpl; exact Hm|]. constructor; assumption.
    + constructor.
      * rewrite insert_by_uid_In. intros [->|Hin]; [apply Hm; left; reflexivity|].
        apply Hx, Hin.
      * apply IH; [|exact Hnd]. intros Hin. apply Hm. right. exact Hin.
Qed.

Lemma sort_by_uid_NoDup (l : list Message) :
  List.NoDup l -> List.NoDup (Mem.sort_by_uid l).
Proof.
  induction l as [|x l IH]; simpl; intros Hnd; [constructor|].
  apply List.NoDup_cons_iff in Hnd as [Hx Hnd].
  apply insert_by_uid_NoDup; [|apply IH, Hnd].
  rewrite sort_by_uid_In. exact Hx.
Qed.

Lemma select_NoDup (c : Condition) (st : Mem.State) :
  List.NoDup (List.map message_id (Mem.rows st)) ->
  List.NoDup (Mem.select c st).
Proof.
  intros Hnd. apply sort_by_uid_NoDup, List.NoDup_filter.
  apply List.NoDup_map_inv in Hnd. exact Hnd.
Qed.

Lemma filter_filter {A} (p q : A -> bool) (l : list A) :
  List.filter p (List.filter q l) = List.filter (fun x => q x && p x) l.
Proof.
  induction l as [|x l IH]; simpl; [reflexivity|].
  destruct (q x); simpl; [destruct (p x)|]; rewrite IH; reflexivity.
Qed.

Lemma filter_all {A} (p : A -> bool) (l : list A) :
  (forall x, In x l -> p x = true) -> List.filter p l = l.
Proof.
  induction l as [|x l IH]; simpl; intros H; [reflexivity|].
  rewrite (H x (or_introl eq_refl)), IH; auto.
Qed.

Lemma filter_none {A} (p : A -> bool) (l : list A) :
  (forall x, In x l -> p x = false) -> List.filter p l = [].
Proof.
  induction l as [|x l IH]; simpl; intros H; [reflexivity|].
  rewrite (H x (or_introl eq_refl)), IH; auto.
Qed.

Section MemoryLoop.

Context (refine : JsError -> Session -> JsError).
Context (translate : string -> string -> string).

Local Abbreviation backend := (Mem.services refine translate).

Lemma mem_expunge_row update session mbox lck m st l ws :
  List.NoDup (List.map message_id (Mem.rows st)) ->
  In m (Mem.rows st) ->
  mailbox m = mailbox_id mbox ->
  expunge_message backend false update session mbox lck m
    {| store := st; lock := l; writeStream := ws |} =
  (Returned tt,
   {| store := mem_expunged session mbox m st; lock := l;
      writeStream := ws ++ (if notifies_session update session mbox
                            then [WriteArgs "EXPUNGE" (uid m)] else []) |},
   mem_block session mbox m).
Proof.
  intros Hnd Hm Hmbox.
  unfold expunge_message. fold (filter_of (mailbox_id mbox) m).
  unfold bind at 1, call at 1. simpl.
  rewrite (filter_single (Mem.rows st) _ m).
  - simpl. unfold mem_block, mem_expunged.
    unfold bind, try_catch, call, push_write, ret. simpl.
    destruct (notifies_session update session mbox);
      destruct (0 <? Z.of_nat (List.length (attachmentIds m)));
      simpl; rewrite ?app_nil_r; reflexivity.
  - apply List.NoDup_map_inv in Hnd. exact Hnd.
  - exact Hm.
  - intros y Hy. apply (filter_matches_row (Mem.rows st)); assumption.
Qed.

(** The store after the loop over [msgs]. *)
Definition mem_expunged_all (session : Session) (mbox : Mailbox)
    (msgs : list Message) (st : Mem.State) : Mem.State :=
  List.fold_left (fun s m => mem_expunged session mbox m s) msgs st.

Lemma mem_expunge_loop update session mbox lck l msgs :
  forall st ws,
  List.NoDup (List.map message_id (Mem.rows st)) ->
  List.NoDup msgs ->
  (forall m, In m msgs -> In m (Mem.rows st) /\ mailbox m = mailbox_id mbox) ->
  for_of msgs (expunge_message backend false update session mbox lck)
    {| store := st; lock := l; writeStream := ws |} =
  (Returned tt,
   {| store := mem_expunged_all session mbox msgs st; lock := l;
      writeStream := ws ++ (if notifies_session update session mbox
                            then List.map (fun m => WriteArgs "EXPUNGE" (uid m)) msgs
                            else []) |},
   List.flat_map (mem_block session mbox) msgs).
Proof.
  induction msgs as [|m msgs IH]; intros st ws Hnd Hmsgs Hin.
  - simpl. unfold ret. destruct (notifies_session _ _ _);
      rewrite app_nil_r; reflexivity.
  - apply List.NoDup_cons_iff in Hmsgs as [Hm Hmsgs].
    destruct (Hin m (or_introl eq_refl)) as [Hrow Hmb].
    rewrite for_of_cons, (mem_expunge_row update session mbox lck m st l ws Hnd Hrow Hmb).
    rewrite IH.
    + simpl. f_equal. f_equal.
      destruct (notifies_session _ _ _); simpl;
        rewrite <- ?app_assoc, ?app_nil_r; reflexivity.
    + simpl. apply NoDup_ids_filter, Hnd.
    + exact Hmsgs.
    + intros y Hy. destruct (Hin y (or_intror Hy)) as [Hyrow Hymb].
      split; [|exact Hymb]. simpl. apply List.filter_In. split; [exact Hyrow|].
      apply negb_true_iff, not_true_is_false.
      rewrite (filter_matches_row (Mem.rows st) (mailbox_id mbox) m y
                 Hnd Hrow Hyrow Hmb).
      intros ->. apply Hm, Hy.
Qed.

Lemma mem_expunged_all_cons session mbox m msgs st :
  mem_expunged_all session mbox (m :: msgs) st
  = mem_expunged_all session mbox msgs (mem_expunged session mbox m st).
Proof. reflexivity. Qed.

Lemma mem_expunged_all_rows session mbox msgs :
  forall st,
  Mem.rows (mem_expunged_all session mbox msgs st) =
  List.filter
    (fun y => negb (existsb (fun m => Mem.filter_matches
                                        (filter_of (mailbox_id mbox) m) y) msgs))
    (Mem.rows st).
Proof.
  induction msgs as [|m msgs IH]; intros st.
  - symmetry. apply filter_all. reflexivity.
  - rewrite mem_expunged_all_cons, IH. simpl. rewrite filter_filter.
    apply List.filter_ext. intros y. rewrite negb_orb. reflexivity.
Qed.

Lemma mem_expunged_all_journal session mbox msgs :
  forall st,
  Mem.journal (mem_expunged_all session mbox msgs st) =
  Mem.journal st ++ List.map (expunge_entry session mbox) msgs.
Proof.
  induction msgs as [|m msgs IH]; intros st.
  - simpl. rewrite app_nil_r. reflexivity.
  - rewrite mem_expunged_all_cons, IH. simpl.
    rewrite <- app_assoc. reflexivity.
Qed.

Lemma mem_expunged_all_rest session mbox msgs :
  forall st,
  Mem.mailboxes (mem_expunged_all session mbox msgs st) = Mem.mailboxes st /\
  Mem.held (mem_expunged_all session mbox msgs st) = Mem.held st.
Proof.
  induction msgs as [|m msgs IH]; intros st; [auto|].
  rewrite mem_expunged_all_cons, !(proj1 (IH _)), !(proj2 (IH _)).
  auto.
Qed.

Lemma mem_blocks_fires session mbox (msgs : list Message) :
  count is_fire (List.flat_map (mem_block session mbox) msgs)
  = List.length msgs.
Proof.
  induction msgs as [|m l IH]; [reflexivity|].
  change (List.flat_map (mem_block session mbox) (m :: l))
    with (mem_block session mbox m ++ List.flat_map (mem_block session mbox) l).
  rewrite count_app, IH. unfold count at 1.
  rewrite mem_block_fires. reflexivity.
Qed.

Lemma mem_blocks_callbacks session mbox (msgs : list Message) :
  callbacks (List.flat_map (mem_block session mbox) msgs) = [].
Proof.
  induction msgs as [|m l IH]; [reflexivity|].
  change (List.flat_map (mem_block session mbox) (m :: l))
    with (mem_block session mbox m ++ List.flat_map (mem_block session mbox) l).
  rewrite callbacks_app, mem_block_callbacks, IH. reflexivity.
Qed.

(** The run of a backend-mode EXPUNGE on the in-memory store whose rows
    have distinct ids. *)
Lemma mem_onExpunge_all this_name mailboxId update session st mbox :
  String.eqb this_name "IMAP" = false ->
  List.find (fun mb => String.eqb (mailbox_id mb) mailboxId) (Mem.mailboxes st)
    = Some mbox ->
  Mem.held st = false ->
  List.NoDup (List.map message_id (Mem.rows st)) ->
  let selected := Mem.select (expunge_condition update mbox) st in
  onExpunge backend this_name mailboxId update session (Mem.frame st) =
  (Returned tt,
   {| store := Mem.set_held false
                 (mem_expunged_all session mbox selected (Mem.set_held true st));
      lock := Some (mem_lock session);
      writeStream := if notifies_session update session mbox
                     then List.map (fun m => WriteArgs "EXPUNGE" (uid m)) selected
                     else [] |},
   [EvRefreshSession "EXPUNGE"; EvFindOne mailboxId;
    EvAcquireLock (Returned (mem_lock session))]
   ++ (EvSelect (db_wsp session) (expunge_condition update mbox)
         (Returned selected)
       :: List.flat_map (mem_block session mbox) selected)
   ++ [EvReleaseLock (mem_lock session) (Returned tt);
       EvSize (alias_id (user session)) (Returned tt);
       EvCallback
         (fn_success
            (if notifies_session update session mbox
             then List.map (fun m => WriteArgs "EXPUNGE" (uid m)) selected
             else []))]).
Proof.
  intros Hmode Hfind Hheld Hnd selected.
  destruct (mem_onExpunge_run refine translate this_name mailboxId update
              session st mbox Hmode Hfind Hheld) as (frb & t & Hloop & ->).
  change (Mem.select (expunge_condition update mbox) (Mem.set_held true st))
    with selected in *.
  rewrite (mem_expunge_loop update session mbox (mem_lock session)
             (Some (mem_lock session)) selected (Mem.set_held true st) [])
    in Hloop.
  - injection Hloop as <- <-. reflexivity.
  - exact Hnd.
  - apply select_NoDup, Hnd.
  - intros m Hm. apply select_spec in Hm as (Hrow & Hmb & _). auto.
Qed.

Lemma selected_removed c (st : Mem.State) mid (y : Message) :
  List.NoDup (List.map message_id (Mem.rows st)) ->
  cond_mailbox c = mid ->
  In y (Mem.rows st) ->
  existsb (fun m => Mem.filter_matches (filter_of mid m) y) (Mem.select c st)
  = Mem.matches c y.
Proof.
  intros Hnd Hmid Hy. apply eq_true_iff_eq.
  rewrite List.existsb_exists. split.
  - intros (m & Hm & Hf).
    pose proof Hm as Hsel. apply select_spec in Hsel as (Hrow & Hmb & _).
    apply (filter_matches_row (Mem.rows st) mid m y Hnd Hrow Hy) in Hf;
      [|congruence].
    subst y. unfold Mem.select in Hm.
    apply sort_by_uid_In, List.filter_In in Hm as [_ Hm]. exact Hm.
  - intros Hm. exists y. split.
    + unfold Mem.select. apply sort_by_uid_In, List.filter_In. auto.
    + apply (filter_matches_row (Mem.rows st) mid y y Hnd Hy Hy); [|reflexivity].
      apply matches_spec in Hm as (Hmb & _). congruence.
Qed.

(** X7.  A backend-mode EXPUNGE on the in-memory store (existing
    mailbox, free lock, rows with distinct ids) removes exactly the rows
    its condition selects and keeps every other row in place; the
    journal grows by one entry per selected row, in ascending UID
    order; the notifier is fired once per selected row; the callback
    gets one EXPUNGE write per selected row when the session is
    notified; the mailboxes are untouched and the lock is free again. *)
Theorem onExpunge_removes_selected this_name mailboxId update session st mbox
    r fr' evs :
  String.eqb this_name "IMAP" = false ->
  List.find (fun mb => String.eqb (mailbox_id mb) mailboxId) (Mem.mailboxes st)
    = Some mbox ->
  Mem.held st = false ->
  List.NoDup (List.map message_id (Mem.rows st)) ->
  onExpunge backend this_name mailboxId update session (Mem.frame st)
    = (r, fr', evs) ->
  Mem.rows (store fr') =
    List.filter (fun y => negb (Mem.matches (expunge_condition update mbox) y))
      (Mem.rows st) /\
  Mem.journal (store fr') =
    Mem.journal st ++
    List.map (expunge_entry session mbox)
      (Mem.select (expunge_condition update mbox) st) /\
  count is_fire evs =
    List.length (Mem.select (expunge_condition update mbox) st) /\
  callbacks evs =
    [fn_success
       (if notifies_session update session mbox
        then List.map (fun m => WriteArgs "EXPUNGE" (uid m))
               (Mem.select (expunge_condition update mbox) st)
        else [])] /\
  Mem.mailboxes (store fr') = Mem.mailboxes st /\
  Mem.held (store fr') = false.
Proof.
  intros Hmode Hfind Hheld Hnd Hrun.
  rewrite (mem_onExpunge_all this_name mailboxId update session st mbox
             Hmode Hfind Hheld Hnd) in Hrun.
  injection Hrun as <- <- <-. simpl store.
  set (selected := Mem.select (expunge_condition update mbox) st).
  split; [|split; [|split; [|split; [|split]]]].
  - simpl. rewrite mem_expunged_all_rows. simpl.
    apply List.filter_ext_in. intros y Hy. f_equal.
    apply selected_removed; auto.
  - simpl. rewrite mem_expunged_all_journal. reflexivity.
  - change (count is_fire (List.flat_map (mem_block session mbox) selected
                           ++ [EvReleaseLock (mem_lock session) (Returned tt);
                               EvSize (alias_id (user session)) (Returned tt);
                               EvCallback (fn_success
                                 (if notifies_session update session mbox
                                  then List.map (fun m => WriteArgs "EXPUNGE" (uid m)) selected
                                  else []))])
            = List.length selected).
    rewrite count_app. change (count is_fire [_; _; _]) with 0%nat.
    rewrite Nat.add_0_r. apply mem_blocks_fires.
  - simpl. rewrite callbacks_app. simpl.
    rewrite mem_blocks_callbacks. reflexivity.
  - simpl. rewrite (proj1 (mem_expunged_all_rest _ _ _ _)). reflexivity.
  - reflexivity.
Qed.

(** X8.  Running the same EXPUNGE again right after finds nothing to
    delete: the select gives no row, no deletion is attempted, nothing
    is journalled or notified, the store stays as the first run left it
    and the callback reports success with no write. *)
Theorem onExpunge_again this_name mailboxId update session st mbox r fr' evs :
  String.eqb this_name "IMAP" = false ->
  List.find (fun mb => String.eqb (mailbox_id mb) mailboxId) (Mem.mailboxes st)
    = Some mbox ->
  Mem.held st = false ->
  List.NoDup (List.map message_id (Mem.rows st)) ->
  onExpunge backend this_name mailboxId update session (Mem.frame st)
    = (r, fr', evs) ->
  onExpunge backend this_name mailboxId update session (Mem.frame (store fr')) =
  (Returned tt,
   {| store := store fr'; lock := Some (mem_lock session); writeStream := [] |},
   [EvRefreshSession "EXPUNGE"; EvFindOne mailboxId;
    EvAcquireLock (Returned (mem_lock session));
    EvSelect (db_wsp session) (expunge_condition update mbox) (Returned []);
    EvReleaseLock (mem_lock session) (Returned tt);
    EvSize (alias_id (user session)) (Returned tt);
    EvCallback (fn_success [])]).
Proof.
  intros Hmode Hfind Hheld Hnd Hrun.
  rewrite (mem_onExpunge_all this_name mailboxId update session st mbox
             Hmode Hfind Hheld Hnd) in Hrun.
  injection Hrun as <- <- <-. simpl store.
  set (selected := Mem.select (expunge_condition update mbox) st).
  set (st' := Mem.set_held false
                (mem_expunged_all session mbox selected (Mem.set_held true st))).
  assert (Hrows : Mem.rows st' =
            List.filter
              (fun y => negb (Mem.matches (expunge_condition update mbox) y))
              (Mem.rows st)).
  { unfold st'. simpl. rewrite mem_expunged_all_rows. simpl.
    apply List.filter_ext_in. intros y Hy. f_equal.
    apply selected_removed; auto. }
  assert (Hsel : Mem.select (expunge_condition update mbox) st' = []).
  { unfold Mem.select. rewrite Hrows, filter_filter, filter_none; [reflexivity|].
    intros y _. destruct (Mem.matches _ y); reflexivity. }
  assert (Hfind' : List.find (fun mb => String.eqb (mailbox_id mb) mailboxId)
                     (Mem.mailboxes st') = Some mbox).
  { unfold st'. simpl. rewrite (proj1 (mem_expunged_all_rest _ _ _ _)). exact Hfind. }
  assert (Hnd' : List.NoDup (List.map message_id (Mem.rows st'))).
  { rewrite Hrows. apply NoDup_ids_filter, Hnd. }
  rewrite (mem_onExpunge_all this_name mailboxId update session st' mbox
             Hmode Hfind' eq_refl Hnd').
  rewrite Hsel. simpl.
  destruct (notifies_session update session mbox); reflexivity.
Qed.

End MemoryLoop.

Lemma onExpunge_removes_selected_witness :
  Mem.rows (store (Scenario.final Scenario.expunge_run)) =
    List.filter
      (fun y => negb (Mem.matches
                        (expunge_condition Scenario.expunge_all Scenario.INBOX) y))
      (Mem.rows Scenario.database) /\
  Mem.journal (store (Scenario.final Scenario.expunge_run)) =
    Mem.journal Scenario.database ++
    List.map (expunge_entry Scenario.session Scenario.INBOX)
      (Mem.select (expunge_condition Scenario.expunge_all Scenario.INBOX)
         Scenario.database) /\
  count is_fire (Scenario.trace Scenario.expunge_run) =
    List.length
      (Mem.select (expunge_condition Scenario.expunge_all Scenario.INBOX)
         Scenario.database) /\
  callbacks (Scenario.trace Scenario.expunge_run) =
    [fn_success
       (if notifies_session Scenario.expunge_all Scenario.session Scenario.INBOX
        then List.map (fun m => WriteArgs "EXPUNGE" (uid m))
               (Mem.select (expunge_condition Scenario.expunge_all Scenario.INBOX)
                  Scenario.database)
        else [])] /\
  Mem.mailboxes (store (Scenario.final Scenario.expunge_run))
    = Mem.mailboxes Scenario.database /\
  Mem.held (store (Scenario.final Scenario.expunge_run)) = false.
Proof.
  apply (onExpunge_removes_selected Scenario.refine Scenario.translate
           "SQLite" "m1" Scenario.expunge_all Scenario.session
           Scenario.database Scenario.INBOX
           (Scenario.outcome Scenario.expunge_run)
           (Scenario.final Scenario.expunge_run)
           (Scenario.trace Scenario.expunge_run)).
  - reflexivity.
  - reflexivity.
  - reflexivity.
  - repeat constructor; simpl; intuition discriminate.
  - vm_compute. reflexivity.
Defined.

(** The rows the run behind the witness above leaves: the live row of
    the mailbox and the row of the other mailbox. *)
Example expunge_run_rows :
  Mem.rows (store (Scenario.final Scenario.expunge_run))
  = [Scenario.m7; Scenario.other].
Proof. vm_compute. reflexivity. Qed.

Lemma onExpunge_again_witness :
  onExpunge Scenario.backend "SQLite" "m1" Scenario.expunge_all Scenario.session
    (Mem.frame (store (Scenario.final Scenario.expunge_run))) =
  (Returned tt,
   {| store := store (Scenario.final Scenario.expunge_run);
      lock := Some (mem_lock Scenario.session); writeStream := [] |},
   [EvRefreshSession "EXPUNGE"; EvFindOne "m1";
    EvAcquireLock (Returned (mem_lock Scenario.session));
    EvSelect (db_wsp Scenario.session)
      (expunge_condition Scenario.expunge_all Scenario.INBOX) (Returned []);
    EvReleaseLock (mem_lock Scenario.session) (Returned tt);
    EvSize (alias_id (user Scenario.session)) (Returned tt);
    EvCallback (fn_success [])]).
Proof.
  apply (onExpunge_again Scenario.refine Scenario.translate
           "SQLite" "m1" Scenario.expunge_all Scenario.session
           Scenario.database Scenario.INBOX
           (Scenario.outcome Scenario.expunge_run)
           (Scenario.final Scenario.expunge_run)
           (Scenario.trace Scenario.expunge_run)).
  - reflexivity.
  - reflexivity.
  - reflexivity.
  - repeat constructor; simpl; intuition discriminate.
  - vm_compute. reflexivity.
Defined.
